(** * Briefly: the rule engine of [writing_bot.py], embedded and verified

    The development embeds the [Briefly] class of [src/writing_bot.py]:
    the rule registry built by [__init__], the eleven checkers and
    suggesters, [analyze_text], and the text repair
    [generate_improved_text] with its two helpers.

    Modelling choices.
    - A Python [str] is a [string]; a character is an 8-bit code point
      (code points below 256).  Character classes ([str.isspace], the
      [\w], [\s], [\d] classes of [re], [str.lower], printability) follow
      CPython's tables on that range.  Literals of the source holding
      characters beyond that range (the bullets of the suggestion texts)
      are kept as the bytes of the source file.
    - Python lists are lists, the insertion-ordered [dict]s of the
      report are association lists, and the fixed-key dicts are records.
    - Operations that can raise ([l[i]], [l.pop(i)]) live in the
      error monad [py]; every checker and suggester returns in [py].
    - Regular expressions are syntax trees, matched by a backtracking
      matcher that lists the possible ends of a match in the priority
      order of [re]. *)

From Stdlib Require Import String Ascii List Bool Arith NArith Lia.
From Stdlib Require Import DecimalString Permutation.
Import ListNotations.

Local Open Scope string_scope.
Local Open Scope list_scope.

Infix "+++" := String.append (right associativity, at level 60).

(** ** Exceptions *)

Module Py.

Inductive exn : Type :=
| IndexError.

Inductive py (A : Type) : Type :=
| Ok (a : A)
| Raise (e : exn).

Arguments Ok {A} a.
Arguments Raise {A} e.

Definition bind {A B : Type} (m : py A) (k : A -> py B) : py B :=
  match m with
  | Ok a => k a
  | Raise e => Raise e
  end.

Definition returns {A : Type} (m : py A) : Prop := exists a, m = Ok a.

End Py.
Import Py.

Notation "x <- m ;; k" := (bind m (fun x => k))
  (at level 61, m at next level, right associativity).
Notation "' p <- m ;; k" := (bind m (fun x => match x with p => k end))
  (at level 61, p pattern, m at next level, right associativity).

(** ** Characters *)

Module Chr.

Definition code (c : ascii) : N := N_of_ascii c.

Definition between (lo hi : N) (c : ascii) : bool :=
  (lo <=? code c)%N && (code c <=? hi)%N.

(** [str.isspace] on one character; also the class [\s]. *)
Definition is_space (c : ascii) : bool :=
  between 9 13 c || between 28 32 c || (code c =? 133)%N || (code c =? 160)%N.

(** The class [\d]. *)
Definition is_digit (c : ascii) : bool := between 48 57 c.

(** The class [\w]: alphanumeric or underscore. *)
Definition is_word (c : ascii) : bool :=
  between 48 57 c || between 65 90 c || between 97 122 c || (code c =? 95)%N
  || (code c =? 170)%N || between 178 179 c || (code c =? 181)%N
  || between 185 186 c || between 188 190 c
  || between 192 214 c || between 216 246 c || between 248 255 c.

(** [str.lower] on one character. *)
Definition lower (c : ascii) : ascii :=
  if between 65 90 c || between 192 214 c || between 216 222 c
  then ascii_of_N (code c + 32)
  else c.

(** [str.isprintable] on one character. *)
Definition is_printable (c : ascii) : bool :=
  negb (between 0 31 c || between 127 160 c || (code c =? 173)%N).

Definition newline : ascii := ascii_of_N 10.
Definition dquote : ascii := ascii_of_N 34.
Definition squote : ascii := ascii_of_N 39.
Definition backslash : ascii := ascii_of_N 92.

End Chr.

(** ** String methods *)

Module Str.

Definition nonempty (s : string) : bool :=
  match s with
  | EmptyString => false
  | String _ _ => true
  end.

(** [s.lower()] on a text of code points below 256, where Python
    lower-cases character by character; the context-sensitive cases of
    Unicode (the final sigma) lie beyond that range. *)
Definition lower (s : string) : string :=
  string_of_list_ascii (map Chr.lower (list_ascii_of_string s)).

Fixpoint lstrip (s : string) : string :=
  match s with
  | EmptyString => EmptyString
  | String c s' => if Chr.is_space c then lstrip s' else s
  end.

Fixpoint rstrip (s : string) : string :=
  match s with
  | EmptyString => EmptyString
  | String c s' =>
      match rstrip s' with
      | EmptyString => if Chr.is_space c then EmptyString else String c EmptyString
      | r => String c r
      end
  end.

(** [s.strip()] *)
Definition strip (s : string) : string := lstrip (rstrip s).

Definition push (c : ascii) (l : list string) : list string :=
  match l with
  | [] => [String c EmptyString]
  | h :: t => String c h :: t
  end.

(** [s.split(sep)] for a one-character separator. *)
Fixpoint split_on (sep : ascii) (s : string) : list string :=
  match s with
  | EmptyString => [EmptyString]
  | String c s' =>
      if Ascii.eqb c sep then EmptyString :: split_on sep s'
      else push c (split_on sep s')
  end.

(** [s.split('\n\n')] *)
Fixpoint split_blank_line (s : string) : list string :=
  match s with
  | EmptyString => [EmptyString]
  | String c s' =>
      match s' with
      | String c' s'' =>
          if Ascii.eqb c Chr.newline && Ascii.eqb c' Chr.newline
          then EmptyString :: split_blank_line s''
          else push c (split_blank_line s')
      | EmptyString => [String c EmptyString]
      end
  end.

(** [s.split()]: the maximal runs of non-whitespace characters. *)
Fixpoint split (s : string) : list string :=
  match s with
  | EmptyString => []
  | String c s' =>
      if Chr.is_space c then split s'
      else match s' with
           | EmptyString => [String c EmptyString]
           | String c' _ =>
               if Chr.is_space c' then String c EmptyString :: split s'
               else push c (split s')
           end
  end.

(** [s[:n]] *)
Definition take (n : nat) (s : string) : string := substring 0 n s.

Fixpoint last_is (a : ascii) (s : string) : bool :=
  match s with
  | EmptyString => false
  | String c EmptyString => Ascii.eqb c a
  | String _ s' => last_is a s'
  end.

(** [s.endswith('.')] *)
Definition endswith_dot (s : string) : bool := last_is "." s.

(** [sep.join(l)] *)
Definition join (sep : string) (l : list string) : string := String.concat sep l.

(** [str(n)] for a non-negative integer. *)
Definition of_nat (n : nat) : string := NilZero.string_of_uint (Nat.to_uint n).

Definition hex_digit (n : N) : ascii :=
  if (n <? 10)%N then ascii_of_N (48 + n) else ascii_of_N (87 + n).

Definition has (a : ascii) (s : string) : bool :=
  existsb (Ascii.eqb a) (list_ascii_of_string s).

Definition repr_char (quote c : ascii) : string :=
  if Ascii.eqb c quote || Ascii.eqb c Chr.backslash
  then String Chr.backslash (String c EmptyString)
  else if (Chr.code c =? 9)%N then String Chr.backslash "t"
  else if (Chr.code c =? 10)%N then String Chr.backslash "n"
  else if (Chr.code c =? 13)%N then String Chr.backslash "r"
  else if Chr.is_printable c then String c EmptyString
  else String Chr.backslash
         (String "x" (String (hex_digit (Chr.code c / 16))
                        (String (hex_digit (Chr.code c mod 16)) EmptyString))).

(** [repr(s)] *)
Definition repr (s : string) : string :=
  let quote :=
    if has Chr.squote s && negb (has Chr.dquote s) then Chr.dquote else Chr.squote in
  String quote
    (String.concat EmptyString (map (repr_char quote) (list_ascii_of_string s))
     +++ String quote EmptyString).

End Str.

(** ** Lists *)

Module Lst.

Definition nonempty {A : Type} (l : list A) : bool :=
  match l with
  | [] => false
  | _ :: _ => true
  end.

(** [l[i]] for [i >= 0]. *)
Definition item {A : Type} (l : list A) (i : nat) : py A :=
  match nth_error l i with
  | Some a => Ok a
  | None => Raise IndexError
  end.

(** [l.pop(i)] for [i >= 0]: the element and the list left. *)
Definition pop {A : Type} (l : list A) (i : nat) : py (A * list A) :=
  match nth_error l i with
  | Some a => Ok (a, firstn i l ++ skipn (S i) l)
  | None => Raise IndexError
  end.

(** [l.insert(i, a)] for [i >= 0]. *)
Definition insert {A : Type} (l : list A) (i : nat) (a : A) : list A :=
  firstn i l ++ a :: skipn i l.

End Lst.

(** ** Regular expressions

    The patterns of the program use literals, the classes [.], [\w],
    [\s], [\d] under greedy [*] and [+], [?], alternation, capturing
    groups, [\b], [^] and the two lookaheads.  [ends] lists the cursors
    at which a match of [r] started at [st] can end, in the order in
    which the backtracking matcher of [re] tries them; the head of the
    list is the match [re] reports.  A group records its text when it
    closes; in every pattern the program gives to [findall] the groups
    follow one another and all take part in a match, so that the
    recorded texts are the groups in their numbering. *)

Module Re.

Inductive cset : Type :=
| AnyChar   (* .  : any character but a newline *)
| WordChar  (* \w *)
| Space     (* \s *)
| Digit.    (* \d *)

Definition in_cset (k : cset) (c : ascii) : bool :=
  match k with
  | AnyChar => negb (Ascii.eqb c Chr.newline)
  | WordChar => Chr.is_word c
  | Space => Chr.is_space c
  | Digit => Chr.is_digit c
  end.

Inductive regex : Type :=
| Lit (s : string)        (* a run of literal characters *)
| Many (k : cset)         (* k*  greedy *)
| Many1 (k : cset)        (* k+  greedy *)
| Opt (r : regex)         (* r?  greedy *)
| Seq (a b : regex)
| Alt (a b : regex)       (* a|b *)
| Grp (r : regex)         (* ( r ) *)
| WordB                   (* \b *)
| Bol                     (* ^ *)
| Ahead (r : regex)       (* (?= r ) *)
| NotAhead (r : regex).   (* (?! r ) *)

(** A position in the subject: the character before it, the text after
    it, and the groups captured so far. *)
Record cursor : Type := Cursor {
  prev : option ascii;
  rest : string;
  caps : list string
}.

Definition chr_eq (ignorecase : bool) (a c : ascii) : bool :=
  if ignorecase then Ascii.eqb (Chr.lower a) (Chr.lower c) else Ascii.eqb a c.

Fixpoint eat (ignorecase : bool) (lit : string) (p : option ascii) (s : string)
  : option (option ascii * string) :=
  match lit with
  | EmptyString => Some (p, s)
  | String a lit' =>
      match s with
      | EmptyString => None
      | String c s' =>
          if chr_eq ignorecase a c then eat ignorecase lit' (Some c) s' else None
      end
  end.

(** The positions after 0, 1, ... leading characters of class [k],
    the longest run first. *)
Fixpoint runs (k : cset) (p : option ascii) (s : string)
  : list (option ascii * string) :=
  match s with
  | EmptyString => [(p, s)]
  | String c s' =>
      if in_cset k c then runs k (Some c) s' ++ [(p, s)] else [(p, s)]
  end.

Definition word_before (p : option ascii) : bool :=
  match p with
  | Some c => Chr.is_word c
  | None => false
  end.

Definition word_after (s : string) : bool :=
  match s with
  | String c _ => Chr.is_word c
  | EmptyString => false
  end.

Definition at_boundary (st : cursor) : bool :=
  xorb (word_before (prev st)) (word_after (rest st)).

Definition move (st : cursor) (ps : option ascii * string) : cursor :=
  Cursor (fst ps) (snd ps) (caps st).

(** The text between two cursors of one subject. *)
Definition consumed (st st' : cursor) : string :=
  Str.take (String.length (rest st) - String.length (rest st')) (rest st).

Fixpoint ends (ignorecase : bool) (r : regex) (st : cursor) : list cursor :=
  match r with
  | Lit s =>
      match eat ignorecase s (prev st) (rest st) with
      | Some ps => [move st ps]
      | None => []
      end
  | Many k => map (move st) (runs k (prev st) (rest st))
  | Many1 k =>
      match rest st with
      | String c s' =>
          if in_cset k c then map (move st) (runs k (Some c) s') else []
      | EmptyString => []
      end
  | Opt r1 => ends ignorecase r1 st ++ [st]
  | Seq a b => flat_map (ends ignorecase b) (ends ignorecase a st)
  | Alt a b => ends ignorecase a st ++ ends ignorecase b st
  | Grp r1 =>
      map (fun st' => Cursor (prev st') (rest st') (caps st' ++ [consumed st st']))
          (ends ignorecase r1 st)
  | WordB => if at_boundary st then [st] else []
  | Bol => match prev st with None => [st] | Some _ => [] end
  | Ahead r1 => if Lst.nonempty (ends ignorecase r1 st) then [st] else []
  | NotAhead r1 => if Lst.nonempty (ends ignorecase r1 st) then [] else [st]
  end.

Definition matches_at (ignorecase : bool) (r : regex) (p : option ascii) (s : string)
  : bool :=
  Lst.nonempty (ends ignorecase r (Cursor p s [])).

Fixpoint search_from (ignorecase : bool) (r : regex) (p : option ascii) (s : string)
  : bool :=
  matches_at ignorecase r p s
  || match s with
     | EmptyString => false
     | String c s' => search_from ignorecase r (Some c) s'
     end.

(** [bool(re.search(r, s, flags))] *)
Definition search (ignorecase : bool) (r : regex) (s : string) : bool :=
  search_from ignorecase r None s.

(** [bool(re.match(r, s, flags))] *)
Definition match_ (ignorecase : bool) (r : regex) (s : string) : bool :=
  matches_at ignorecase r None s.

(** An element of the list [re.findall] returns: the whole match when
    the pattern has no group, the group when it has one, the tuple of
    the groups when it has several. *)
Inductive found : Type :=
| FStr (s : string)
| FTuple (l : list string).

Definition report (st st' : cursor) : found :=
  match caps st' with
  | [] => FStr (consumed st st')
  | [g] => FStr g
  | gs => FTuple gs
  end.

(** The scan of [re.findall]: leftmost matches, each search resuming
    where the previous match ended.  [skip] counts the characters of
    the last match still to pass.  No pattern the program gives to
    [findall] matches the empty string; an empty match is recorded and
    the scan moves one character on. *)
Fixpoint findall_from (ignorecase : bool) (r : regex) (p : option ascii) (s : string)
  (skip : nat) {struct s} : list found :=
  match skip with
  | S k =>
      match s with
      | String c s' => findall_from ignorecase r (Some c) s' k
      | EmptyString => []
      end
  | O =>
      let st := Cursor p s [] in
      match ends ignorecase r st with
      | st' :: _ =>
          match s with
          | String c s' =>
              report st st'
              :: findall_from ignorecase r (Some c) s'
                   (pred (String.length s - String.length (rest st')))
          | EmptyString => [report st st']
          end
      | [] =>
          match s with
          | String c s' => findall_from ignorecase r (Some c) s' 0
          | EmptyString => []
          end
      end
  end.

(** [re.findall(r, s, flags)] *)
Definition findall (ignorecase : bool) (r : regex) (s : string) : list found :=
  findall_from ignorecase r None s 0.

(** [str(m)] for an element [m] of a [findall] result, as an f-string
    interpolates it. *)
Definition format (m : found) : string :=
  match m with
  | FStr s => s
  | FTuple [g] => "(" +++ Str.repr g +++ ",)"
  | FTuple gs => "(" +++ Str.join ", " (map Str.repr gs) +++ ")"
  end.

(** Pattern builders. *)
Fixpoint seq (l : list regex) : regex :=
  match l with
  | [] => Lit EmptyString
  | [r] => r
  | r :: l' => Seq r (seq l')
  end.

Fixpoint alt (l : list regex) : regex :=
  match l with
  | [] => NotAhead (Lit EmptyString)
  | [r] => r
  | r :: l' => Alt r (alt l')
  end.

(** [(w1|w2|...)]: a group of literal alternatives. *)
Definition words (l : list string) : regex := Grp (alt (map Lit l)).

Definition IGNORECASE : bool := true.
Definition NOFLAGS : bool := false.

End Re.

Import Re.

(** ** The report *)

Record RuleResult : Type := mkRuleResult {
  passed : bool;
  issues : list string;
  rr_description : string
}.

Record Report : Type := mkReport {
  original_text : string;
  analysis : list (string * RuleResult);
  suggestions : list string;
  improved_text : string
}.

Record Rule : Type := mkRule {
  description : string;
  check : string -> py (list string);
  suggest : string -> list string -> py (list string)
}.

(** [d[k] = v] on an insertion-ordered dict: a present key keeps its
    place, a new key goes last. *)
Fixpoint dict_set {V : Type} (d : list (string * V)) (k : string) (v : V)
  : list (string * V) :=
  match d with
  | [] => [(k, v)]
  | (k', v') :: d' =>
      if String.eqb k' k then (k, v) :: d' else (k', v') :: dict_set d' k v
  end.

Definition keys {V : Type} (d : list (string * V)) : list string := map fst d.

(** [any(re.search(pattern, s, flags) for pattern in patterns)] *)
Definition any_search (flags : bool) (patterns : list regex) (s : string) : bool :=
  existsb (fun pattern => search flags pattern s) patterns.

(** [len(s.split())] *)
Definition word_count (s : string) : nat := List.length (Str.split s).

(** [[s.strip() for s in text.split('.') if s.strip()]] *)
Definition stripped_sentences (text : string) : list string :=
  map Str.strip (filter (fun s => Str.nonempty (Str.strip s)) (Str.split_on "." text)).

(** ** Rule 1: super_specific_how *)

Definition vague_patterns : list regex :=
  [ seq [WordB; words ["you should"; "it's important to"; "make sure to"];
         Many1 Space; words ["be"; "have"; "do"; "get"; "use"];
         Many1 Space; Many1 WordChar];
    seq [WordB; words ["focus on"; "prioritize"; "emphasize"];
         Many1 Space; Many1 WordChar; Many1 Space; words ["more"; "better"]];
    seq [WordB; words ["improve"; "enhance"; "optimize"];
         Many1 Space; Many1 WordChar; Many1 Space; words ["in order to"; "to"];
         Many1 Space; Many1 WordChar] ].

Definition specific_indicators : list regex :=
  [ seq [WordB; words ["here's how"; "this is how"; "step 1"; "first,"; "second,";
                       "then"; "next"]];
    seq [WordB; words ["specifically"; "exactly"; "precisely"]];
    seq [WordB; words ["example"; "instance"; "case study"]];
    seq [Many1 Digit; Many1 Space; words ["minutes"; "hours"; "days"; "steps"]] ].

Definition lacks_specifics : string :=
  "Text lacks specific implementation details - consider adding 'how-to' elements".

(** The loop over [vague_patterns], from the issues found so far. *)
Fixpoint vague_loop (patterns : list regex) (text : string) (issues : list string)
  : py (list string) :=
  match patterns with
  | [] => Ok issues
  | pattern :: patterns' =>
      let matches := findall IGNORECASE pattern text in
      if Lst.nonempty matches then
        m0 <- Lst.item matches 0 ;;
        vague_loop patterns' text
          (issues ++ ["Potential vague advice without specific implementation: '"
                      +++ format m0 +++ "'"])
      else vague_loop patterns' text issues
  end.

Definition _check_super_specific_how (text : string) : py (list string) :=
  issues <- vague_loop vague_patterns text [] ;;
  let has_specific_content := any_search IGNORECASE specific_indicators text in
  if negb has_specific_content && (100 <? word_count text)%nat then
    Ok (issues ++ [lacks_specifics])
  else Ok issues.

Definition _suggest_super_specific_how (text : string) (issues : list string)
  : py (list string) :=
  Ok [ "â€¢ Add specific steps, examples, or concrete implementation details";
       "â€¢ Replace vague advice with actionable instructions (e.g., 'Here's how to...' instead of 'You should...')";
       "â€¢ Include time estimates, specific tools, or measurable outcomes" ].

(** ** Rule 2: cut_backstory *)

Definition backstory_indicators : list regex :=
  [ seq [WordB; words ["let me"; "i want to"; "first, let me"; "to begin with";
                       "in order to understand"]];
    seq [WordB; words ["context"; "background"; "history"; "overview"; "introduction"]];
    seq [WordB; words ["going to"; "about to"; "planning to"; "will be talking about"]] ].

Definition _check_backstory (text : string) : py (list string) :=
  let sentences := Str.split_on "." text in
  let first_third :=
    if (3 <? List.length sentences)%nat
    then firstn (List.length sentences / 3) sentences
    else sentences in
  Ok (flat_map
        (fun sentence =>
           if any_search IGNORECASE backstory_indicators sentence
           then ["Potential backstory in opening: '" +++ Str.strip sentence +++ "'"]
           else [])
        first_third).

Definition _suggest_cut_backstory (text : string) (issues : list string)
  : py (list string) :=
  Ok [ "â€¢ Consider starting closer to the main point or key insight";
       "â€¢ Ask: 'Does this opening sentence directly serve my reader's immediate need?'";
       "â€¢ Try starting with the insight or recommendation, then provide minimal necessary context" ].

(** ** Rule 3: clear_recommendations *)

Definition unclear_patterns : list regex :=
  [ seq [WordB; words ["you might want to"; "it could be"; "perhaps"; "maybe";
                       "consider"]];
    seq [WordB; words ["on one hand"; "on the other hand"]; WordB; Many AnyChar;
         WordB; words ["on the other hand"; "however"; "but"]; WordB];
    seq [WordB; words ["pros and cons"; "advantages and disadvantages"]; WordB;
         NotAhead (seq [Many AnyChar; Lit "recommend"])] ].

(** [\b(pros?|advantages?)\b.*\b(cons?|disadvantages?)\b] *)
Definition pros_cons : regex :=
  seq [WordB; Grp (Alt (Seq (Lit "pro") (Opt (Lit "s")))
                       (Seq (Lit "advantage") (Opt (Lit "s"))));
       WordB; Many AnyChar; WordB;
       Grp (Alt (Seq (Lit "con") (Opt (Lit "s")))
                (Seq (Lit "disadvantage") (Opt (Lit "s"))));
       WordB].

Definition _check_clear_recommendations (text : string) : py (list string) :=
  let issues :=
    flat_map
      (fun pattern =>
         if search IGNORECASE pattern text
         then ["Potentially unclear recommendation - consider stating your position more directly"]
         else [])
      unclear_patterns in
  if search IGNORECASE pros_cons text then
    if negb (search IGNORECASE
               (seq [WordB; words ["recommend"; "suggest"; "think"; "believe"]; WordB])
               text)
    then Ok (issues ++ ["Pros/cons list detected without clear recommendation - state your position upfront"])
    else Ok issues
  else Ok issues.

Definition _suggest_clear_recommendations (text : string) (issues : list string)
  : py (list string) :=
  Ok [ "â€¢ State your recommendation upfront (e.g., 'I recommend X because...')";
       "â€¢ If presenting options, clearly indicate which you prefer and why";
       "â€¢ Replace hedging language with confident statements where appropriate" ].

(** ** Rule 4: bottom_line_first *)

Definition conclusion_indicators : list regex :=
  [ seq [WordB; words ["recommend"; "suggest"; "conclude"; "believe"; "think";
                       "decision"]];
    seq [WordB; words ["in summary"; "to summarize"; "bottom line"; "the point is"]];
    seq [WordB; words ["action item"; "next steps"; "what to do"]] ].

Definition buried_conclusion : string :=
  "Main conclusion or recommendation may be buried - consider leading with the key takeaway".

(** [sentences[:len(sentences)//3]] of [text.split('.')] *)
Definition first_third (text : string) : list string :=
  let sentences := Str.split_on "." text in
  firstn (List.length sentences / 3) sentences.

(** [any(re.search(pattern, sentence, re.IGNORECASE)
         for sentence in first_third for pattern in conclusion_indicators)] *)
Definition has_early_conclusion (text : string) : bool :=
  existsb (any_search IGNORECASE conclusion_indicators) (first_third text).

Definition _check_bottom_line_first (text : string) : py (list string) :=
  let sentences := Str.split_on "." text in
  if (List.length sentences <? 3)%nat then Ok []
  else if negb (has_early_conclusion text) then Ok [buried_conclusion]
  else Ok [].

Definition _suggest_bottom_line_first (text : string) (issues : list string)
  : py (list string) :=
  Ok [ "â€¢ Start with: 'Bottom line: [your main point]'";
       "â€¢ Or begin with: 'I recommend [action] because [key reason]'";
       "â€¢ Move supporting details and context after the main point" ].

(** ** Rule 5: adequate_context *)

Definition context_indicators : list regex :=
  [ seq [WordB; words ["because"; "since"; "given that"; "considering"; "due to"]];
    seq [WordB; words ["context"; "background"; "premise"; "assumption"]];
    seq [WordB; words ["for example"; "for instance"; "such as"]] ].

Definition _check_adequate_context (text : string) : py (list string) :=
  let word_count := word_count text in
  if (200 <? word_count)%nat then
    let has_context := any_search IGNORECASE context_indicators text in
    if negb has_context && (300 <? word_count)%nat
    then Ok ["Long text may lack sufficient context or examples for reader comprehension"]
    else Ok []
  else Ok [].

Definition _suggest_adequate_context (text : string) (issues : list string)
  : py (list string) :=
  Ok [ "â€¢ Add context if readers might need more background to understand";
       "â€¢ Use examples, analogies, or case studies to illustrate key points";
       "â€¢ Consider adding 'Context:' or 'Background:' sections for complex topics" ].

(** ** Rule 6: sentence_structure *)

Definition weak_openings : list regex :=
  [ seq [Bol; Lit "there "; words ["is"; "are"; "was"; "were"]; WordB];
    seq [Bol; Lit "it "; words ["is"; "was"]; WordB; Many AnyChar; Lit "that"];
    seq [Bol; Lit "what "; words ["is"; "was"]; WordB];
    seq [Bol; Lit "the fact that"; WordB] ].

Definition pronouns : list string := ["it"; "this"; "that"; "these"; "those"].

Definition pronoun : regex := seq [WordB; words pronouns; WordB].

Definition two_pronouns : regex :=
  seq [WordB; words pronouns; WordB; Many AnyChar; WordB; words pronouns; WordB].

Definition excerpt (n : nat) (sentence : string) : string :=
  "'" +++ Str.take n sentence +++ "...'".

Definition sentence_issues (sentence : string) : list string :=
  (if (30 <? word_count sentence)%nat
   then ["Very long sentence (" +++ Str.of_nat (word_count sentence) +++ " words): "
         +++ excerpt 50 sentence]
   else [])
  ++ (if existsb (fun pattern => match_ IGNORECASE pattern sentence) weak_openings
      then ["Consider stronger sentence opening: " +++ excerpt 50 sentence]
      else [])
  ++ (if search IGNORECASE two_pronouns sentence
      then if (2 <? List.length (findall IGNORECASE pronoun sentence))%nat
           then ["Multiple unclear pronoun references: " +++ excerpt 50 sentence]
           else []
      else []).

Definition _check_sentence_structure (text : string) : py (list string) :=
  Ok (flat_map sentence_issues (stripped_sentences text)).

Definition _suggest_sentence_structure (text : string) (issues : list string)
  : py (list string) :=
  Ok [ "â€¢ Break sentences longer than 25-30 words into shorter, clearer sentences";
       "â€¢ Start sentences with strong subjects and active verbs when possible";
       "â€¢ Avoid starting with 'There is/are' - use more direct constructions";
       "â€¢ Make pronoun references clear and specific" ].

(** ** Rule 7: active_voice *)

Definition passive_patterns : list regex :=
  [ seq [WordB; words ["was"; "were"; "is"; "are"; "been"; "being"]; Many1 Space;
         Many1 WordChar; Lit "ed"; WordB];
    seq [WordB; words ["was"; "were"; "is"; "are"]; Many1 Space; Many1 WordChar;
         Many1 Space; Lit "by"; Many1 Space; Many1 WordChar];
    seq [WordB; words ["it was"; "they were"; "there was"; "there were"]; Many1 Space;
         Many1 WordChar; Lit "ed"; WordB] ].

Definition _check_active_voice (text : string) : py (list string) :=
  Ok (flat_map
        (fun sentence =>
           let sentence := Str.lower (Str.strip sentence) in
           if any_search NOFLAGS passive_patterns sentence
           then ["Passive voice detected: " +++ excerpt 60 sentence]
           else [])
        (Str.split_on "." text)).

Definition _suggest_active_voice (text : string) (issues : list string)
  : py (list string) :=
  Ok [ "â€¢ Rewrite passive voice to active voice for stronger, clearer writing";
       "â€¢ Put the doer of the action before the verb when possible";
       "â€¢ Example: 'The report was written by John' â†’ 'John wrote the report'" ].

(** ** Rule 8: logical_flow *)

Definition transition_indicators : list regex :=
  [ seq [WordB; words ["first"; "second"; "third"; "next"; "then"; "furthermore";
                       "moreover"; "however"; "therefore"; "consequently"]; WordB] ].

Definition list_structure : regex :=
  seq [WordB; words ["1."; "2."; "3."; "first"; "second"; "third"; "-"; "*"]; WordB].

Definition topic_indicators : list regex :=
  [ seq [WordB;
         Grp (alt [Lit "in this"; Lit "we will"; Lit "the main";
                   Seq (Lit "this ") (words ["section"; "chapter"; "part"]);
                   Lit "to summarize"; Lit "in conclusion"]);
         WordB];
    seq [WordB; words ["first"; "next"; "then"; "finally"; "overall"; "in summary"];
         WordB] ].

(** The loop over [enumerate(paragraphs)], [i] being the index of the
    head of [paragraphs]; it stops at the first paragraph reported. *)
Fixpoint paragraph_loop (paragraphs : list string) (i : nat) (issues : list string)
  : py (list string) :=
  match paragraphs with
  | [] => Ok issues
  | paragraph :: paragraphs' =>
      let sentences := stripped_sentences paragraph in
      if (1 <? List.length sentences)%nat then
        first_sentence <- Lst.item sentences 0 ;;
        let has_topic_sentence := any_search IGNORECASE topic_indicators first_sentence in
        if negb has_topic_sentence && (15 <? word_count first_sentence)%nat
        then Ok (issues ++ ["Paragraph " +++ Str.of_nat (i + 1)
                            +++ " may lack a clear topic sentence"])
        else paragraph_loop paragraphs' (S i) issues
      else paragraph_loop paragraphs' (S i) issues
  end.

Definition _check_logical_flow (text : string) : py (list string) :=
  let has_transitions := any_search IGNORECASE transition_indicators text in
  let has_structure := search IGNORECASE list_structure text in
  let word_count := word_count text in
  let issues :=
    if (150 <? word_count)%nat then
      if negb (has_transitions || has_structure)
      then ["Long text lacks clear logical structure - consider adding transitions or organizing in numbered points"]
      else []
    else [] in
  let paragraphs :=
    map Str.strip
        (filter (fun p => Str.nonempty (Str.strip p)) (Str.split_blank_line text)) in
  paragraph_loop paragraphs 0 issues.

Definition _suggest_logical_flow (text : string) (issues : list string)
  : py (list string) :=
  Ok [ "â€¢ Use transition words to guide readers through your argument";
       "â€¢ Start each paragraph with a clear topic sentence";
       "â€¢ Organize ideas in logical order: most important first, supporting details second";
       "â€¢ Consider using numbered lists or bullet points for clarity" ].

(** ** Rule 9: conciseness *)

(** [\bphrase\b] *)
Definition phrase (s : string) : regex := seq [WordB; Lit s; WordB].

Definition redundancies : list (regex * string) :=
  [ (phrase "absolutely essential", "essential");
    (phrase "completely finished", "finished");
    (phrase "first and foremost", "first");
    (phrase "if and when", "when");
    (phrase "in order to", "to");
    (phrase "in the event that", "if");
    (phrase "due to the fact that", "because");
    (phrase "for the purpose of", "to");
    (phrase "previous experience", "experience");
    (phrase "advance planning", "planning");
    (phrase "close proximity", "near") ].

Definition filler_patterns : list regex :=
  [ seq [WordB; words ["very"; "really"; "quite"; "rather"; "somewhat"; "quite a bit"];
         WordB] ].

(** [sum(len(re.findall(pattern, text, re.IGNORECASE)) for pattern in patterns)] *)
Definition count_all (patterns : list regex) (text : string) : nat :=
  list_sum (map (fun pattern => List.length (findall IGNORECASE pattern text)) patterns).

(** [count > words * 0.02] and [count > words * 0.03]: the product is
    a double, compared with an integer.  When [words * num / 100] is
    an integer the product rounds to that integer, and otherwise it is
    about 1/100 or more away from every integer, so the comparison is
    the one of the exact fraction. *)
Definition exceeds_percent (count num words : nat) : bool :=
  (num * words <? 100 * count)%nat.

Definition _check_conciseness (text : string) : py (list string) :=
  let issues :=
    flat_map
      (fun '(pattern, replacement) =>
         if search IGNORECASE pattern text
         then ["Redundant phrase found - consider using '" +++ replacement
               +++ "' instead"]
         else [])
      redundancies in
  let filler_count := count_all filler_patterns text in
  let word_count := word_count text in
  if exceeds_percent filler_count 2 word_count
  then Ok (issues ++ ["Excessive use of filler words (" +++ Str.of_nat filler_count
                      +++ " instances) - consider removing some"])
  else Ok issues.

Definition _suggest_conciseness (text : string) (issues : list string)
  : py (list string) :=
  Ok [ "â€¢ Remove redundant phrases and unnecessary words";
       "â€¢ Replace wordy constructions with shorter alternatives";
       "â€¢ Avoid filler words like 'very', 'really', 'quite' when possible";
       "â€¢ Example: 'in order to' â†’ 'to', 'due to the fact that' â†’ 'because'" ].

(** ** Rule 10: clarity_simplicity *)

Definition jargon_patterns : list regex :=
  [ seq [WordB; words ["utilize"; "utilization"]; WordB];
    seq [WordB; words ["facilitate"; "facilitation"]; WordB];
    seq [WordB; words ["leverage"]; WordB; Ahead (seq [Many AnyChar; Lit "business"])];
    seq [WordB; words ["paradigm"; "synergistic"; "holistic"]; WordB];
    seq [WordB; words ["optimal"; "optimize"; "optimization"]; WordB];
    seq [WordB; words ["innovative solution"; "best practices"; "mission-critical"];
         WordB] ].

(** The loop over [jargon_patterns], from the issues found so far. *)
Fixpoint jargon_loop (patterns : list regex) (text : string) (issues : list string)
  : py (list string) :=
  match patterns with
  | [] => Ok issues
  | pattern :: patterns' =>
      let matches := findall IGNORECASE pattern text in
      if Lst.nonempty matches then
        m0 <- Lst.item matches 0 ;;
        jargon_loop patterns' text
          (issues ++ ["Jargon detected - consider simpler alternatives: '"
                      +++ format m0 +++ "'"])
      else jargon_loop patterns' text issues
  end.

Definition clause_word : regex :=
  seq [WordB; words ["and"; "but"; "however"; "although"; "while"; "whereas"]; WordB].

Definition complex_sentence (sentence : string) : bool :=
  let clause_count := List.length (findall NOFLAGS clause_word sentence) in
  (2 <? clause_count)%nat && (25 <? word_count sentence)%nat.

(** The last phrase of the source is [vis-], the characters of codes
    195 and 160, [-vis]. *)
Definition formal_phrases : list (regex * string) :=
  [ (phrase "in order to", "to");
    (phrase "with regard to", "about");
    (phrase "in the event that", "if");
    (phrase "for the purpose of", "to");
    (phrase "id est", "that is");
    (phrase ("vis-" +++ String (ascii_of_N 195) (String (ascii_of_N 160) "-vis")),
     "compared to") ].

Definition _check_clarity_simplicity (text : string) : py (list string) :=
  issues <- jargon_loop jargon_patterns text [] ;;
  let issues :=
    if existsb complex_sentence (stripped_sentences text)
    then issues ++ ["Complex sentence structure - consider breaking into simpler sentences"]
    else issues in
  Ok (issues
      ++ flat_map
           (fun '(pattern, replacement) =>
              if search IGNORECASE pattern text
              then ["Formal phrase could be simplified: consider using '"
                    +++ replacement +++ "'"]
              else [])
           formal_phrases).

Definition _suggest_clarity_simplicity (text : string) (issues : list string)
  : py (list string) :=
  Ok [ "â€¢ Replace jargon with simple, clear words";
       "â€¢ Use 'use' instead of 'utilize', 'help' instead of 'facilitate'";
       "â€¢ Break complex sentences into shorter, clearer ones";
       "â€¢ Avoid unnecessarily formal language - write as you speak";
       "â€¢ Example: 'utilize' â†’ 'use', 'facilitate' â†’ 'help', 'leverage' â†’ 'use'" ].

(** ** Rule 11: eliminate_clutter *)

Definition clutter_words : list regex :=
  [ seq [WordB; words ["very"; "really"; "quite"; "rather"; "somewhat"; "pretty";
                       "fairly"; "relatively"]; WordB];
    seq [WordB; words ["in a very real sense"; "it is important to note that";
                       "needless to say"]; WordB];
    seq [WordB; words ["kind of"; "sort of"; "basically"; "essentially"; "literally";
                       "actually"; "totally"]; WordB] ].

Definition weak_adverbs : list regex :=
  [ seq [WordB; words ["slightly"; "somewhat"; "fairly"; "rather"; "quite"]; Lit " ";
         words ["good"; "bad"; "nice"; "important"; "interesting"]; WordB];
    seq [WordB; words ["very"; "really"; "extremely"]; Lit " "; Many1 WordChar;
         Lit "ly"; WordB];
    seq [WordB; Lit "totally"; Many1 Space;
         words ["different"; "wrong"; "correct"; "right"]; WordB] ].

Definition redundant_phrases : list regex :=
  [ phrase "advance warning"; phrase "true facts"; phrase "gather together";
    phrase "plan ahead"; phrase "free gift"; phrase "new innovation" ].

Definition _check_eliminate_clutter (text : string) : py (list string) :=
  let clutter_count := count_all clutter_words text in
  let word_count := word_count text in
  Ok ((if exceeds_percent clutter_count 3 word_count
       then ["High clutter word density (" +++ Str.of_nat clutter_count
             +++ " instances) - remove unnecessary qualifiers"]
       else [])
      ++ (if any_search IGNORECASE weak_adverbs text
          then ["Weak adverb + adjective combination detected - strengthen the word itself"]
          else [])
      ++ (if any_search IGNORECASE redundant_phrases text
          then ["Redundant phrase detected - remove unnecessary word"]
          else [])).

Definition _suggest_eliminate_clutter (text : string) (issues : list string)
  : py (list string) :=
  Ok [ "â€¢ Remove clutter words: 'very', 'really', 'quite', 'rather', 'somewhat'";
       "â€¢ Strengthen weak words instead of adding qualifiers";
       "â€¢ Eliminate redundant phrases like 'advance warning' or 'new innovation'";
       "â€¢ Example: 'very good' â†’ 'excellent', 'really important' â†’ 'crucial'";
       "â€¢ Zinsser's rule: Every word must earn its place" ].

(** ** The registry ([Briefly.__init__]) *)

Definition rules : list (string * Rule) :=
  [ ("super_specific_how",
     mkRule "Focus on actionable 'how' rather than 'what' and 'why'"
            _check_super_specific_how _suggest_super_specific_how);
    ("cut_backstory",
     mkRule "Start right before you get eaten by the bear - cut unnecessary backstory"
            _check_backstory _suggest_cut_backstory);
    ("clear_recommendations",
     mkRule "Avoid communication surprises - be clear about your point of view"
            _check_clear_recommendations _suggest_clear_recommendations);
    ("bottom_line_first",
     mkRule "Lead with conclusions, then provide context (Minto Pyramid Principle)"
            _check_bottom_line_first _suggest_bottom_line_first);
    ("adequate_context",
     mkRule "Over-communicate - ensure sufficient context without overwhelming"
            _check_adequate_context _suggest_adequate_context);
    ("sentence_structure",
     mkRule "Use clear, concise sentences with proper structure (Casagrande principles)"
            _check_sentence_structure _suggest_sentence_structure);
    ("active_voice",
     mkRule "Prefer active voice over passive voice for clarity and directness"
            _check_active_voice _suggest_active_voice);
    ("logical_flow",
     mkRule "Structure arguments logically with clear hierarchy (Minto Pyramid)"
            _check_logical_flow _suggest_logical_flow);
    ("conciseness",
     mkRule "Eliminate unnecessary words and redundant phrases"
            _check_conciseness _suggest_conciseness);
    ("clarity_simplicity",
     mkRule "Write clearly and simply - avoid jargon and complex constructions (Zinsser)"
            _check_clarity_simplicity _suggest_clarity_simplicity);
    ("eliminate_clutter",
     mkRule "Remove unnecessary words, adverbs, and complexity (Zinsser principles)"
            _check_eliminate_clutter _suggest_eliminate_clutter) ].

(** ** [analyze_text] *)

(** The loop over [self.rules.items()], from the report built so far. *)
Fixpoint analyze_loop (todo : list (string * Rule)) (text : string) (results : Report)
  : py Report :=
  match todo with
  | [] => Ok results
  | (rule_name, rule) :: todo' =>
      issues <- check rule text ;;
      let results :=
        mkReport (original_text results)
                 (dict_set (analysis results) rule_name
                    (mkRuleResult (List.length issues =? 0)%nat issues (description rule)))
                 (suggestions results)
                 (improved_text results) in
      if Lst.nonempty issues then
        new_suggestions <- suggest rule text issues ;;
        analyze_loop todo' text
          (mkReport (original_text results) (analysis results)
                    (suggestions results ++ new_suggestions) (improved_text results))
      else analyze_loop todo' text results
  end.

Definition analyze_text (text : string) : py Report :=
  analyze_loop rules text (mkReport text [] [] text).

(** ** [generate_improved_text] *)

Definition conclusion_patterns : list regex :=
  [ seq [WordB; words ["recommend"; "suggest"; "conclude"; "believe"; "think"]];
    seq [WordB; words ["summary"; "bottom line"; "point is"]] ].

(** The loop over [enumerate(sentences)]: [todo] is what is left to
    visit and [i] the index of its head.  The first conclusion sentence
    of index above 1 is popped and inserted at index 1, which ends the
    loop; a conclusion sentence of index 0 or 1 is passed over. *)
Fixpoint move_conclusion (sentences : list string) (i : nat) (todo : list string)
  : py (list string) :=
  match todo with
  | [] => Ok sentences
  | sentence :: todo' =>
      if any_search IGNORECASE conclusion_patterns sentence then
        if (1 <? i)%nat then
          ' (conclusion, sentences') <- Lst.pop sentences i ;;
          Ok (Lst.insert sentences' 1 conclusion)
        else move_conclusion sentences (S i) todo'
      else move_conclusion sentences (S i) todo'
  end.

Definition _apply_bottom_line_first (text : string) : py string :=
  let sentences := stripped_sentences text in
  sentences <- (if (2 <? List.length sentences)%nat
                then move_conclusion sentences 0 sentences
                else Ok sentences) ;;
  Ok (Str.join ". " sentences +++ (if Str.endswith_dot text then "." else "")).

Definition _apply_clear_recommendations (text : string) : py string :=
  if negb (search IGNORECASE
             (seq [WordB; words ["recommend"; "suggest"; "believe"; "think we should"];
                   WordB])
             text)
  then if search IGNORECASE pros_cons text
       then Ok ("Recommendation: " +++ text)
       else Ok text
  else Ok text.

(** The loop over [analysis["analysis"].items()], from the text so far. *)
Fixpoint improve_loop (items : list (string * RuleResult)) (text : string) : py string :=
  match items with
  | [] => Ok text
  | (rule_name, rule_analysis) :: items' =>
      if negb (passed rule_analysis) && Lst.nonempty (issues rule_analysis) then
        if String.eqb rule_name "bottom_line_first" then
          text <- _apply_bottom_line_first text ;;
          improve_loop items' text
        else if String.eqb rule_name "clear_recommendations" then
          text <- _apply_clear_recommendations text ;;
          improve_loop items' text
        else improve_loop items' text
      else improve_loop items' text
  end.

Definition generate_improved_text (report : Report) : py string :=
  improve_loop (analysis report) (original_text report).

(** * Properties *)

(** ** Every checker and suggester returns *)

Definition total_rule (rule : Rule) : Prop :=
  (forall text, returns (check rule text))
  /\ (forall text issues, returns (suggest rule text issues)).

Arguments search : simpl never.
Arguments match_ : simpl never.
Arguments findall : simpl never.
Arguments any_search : simpl never.
Arguments stripped_sentences : simpl never.
Arguments word_count : simpl never.

Create HintDb briefly.

Lemma returns_Ok {A : Type} (a : A) : returns (Ok a).
Proof. exists a; reflexivity. Qed.

#[local] Hint Resolve returns_Ok : briefly.

Lemma vague_loop_returns patterns text issues :
  returns (vague_loop patterns text issues).
Proof.
  revert issues; induction patterns as [|pattern patterns IH]; intros issues; simpl.
  - auto with briefly.
  - destruct (findall IGNORECASE pattern text) as [|m0 matches]; simpl; apply IH.
Qed.

Lemma jargon_loop_returns patterns text issues :
  returns (jargon_loop patterns text issues).
Proof.
  revert issues; induction patterns as [|pattern patterns IH]; intros issues; simpl.
  - auto with briefly.
  - destruct (findall IGNORECASE pattern text) as [|m0 matches]; simpl; apply IH.
Qed.

Lemma paragraph_loop_returns paragraphs i issues :
  returns (paragraph_loop paragraphs i issues).
Proof.
  revert i; induction paragraphs as [|paragraph paragraphs IH]; intros i; simpl.
  - auto with briefly.
  - destruct (stripped_sentences paragraph) as [|first_sentence others]; simpl.
    + apply IH.
    + destruct (1 <? S (List.length others))%nat; [|apply IH].
      unfold Lst.item; simpl.
      destruct (negb _ && _); [auto with briefly | apply IH].
Qed.

Lemma pop_in_range {A : Type} (l : list A) (i : nat) :
  i < List.length l ->
  exists a, Lst.pop l i = Ok (a, firstn i l ++ skipn (S i) l).
Proof.
  intros Hi; unfold Lst.pop.
  destruct (nth_error l i) as [a|] eqn:E.
  - exists a; reflexivity.
  - apply nth_error_None in E; lia.
Qed.

Lemma move_conclusion_returns sentences i todo :
  i + List.length todo = List.length sentences ->
  returns (move_conclusion sentences i todo).
Proof.
  revert i; induction todo as [|sentence todo IH]; intros i Hlen; simpl in *.
  - auto with briefly.
  - assert (Hnext : returns (move_conclusion sentences (S i) todo))
      by (apply IH; lia).
    destruct (any_search IGNORECASE conclusion_patterns sentence); [|exact Hnext].
    destruct (1 <? i)%nat; [|exact Hnext].
    destruct (pop_in_range sentences i) as [a Ha]; [lia|].
    rewrite Ha; simpl; auto with briefly.
Qed.

Lemma check_super_specific_how_returns text :
  returns (_check_super_specific_how text).
Proof.
  unfold _check_super_specific_how.
  destruct (vague_loop_returns vague_patterns text []) as [issues ->]; simpl.
  destruct (negb _ && _); auto with briefly.
Qed.

Lemma check_clear_recommendations_returns text :
  returns (_check_clear_recommendations text).
Proof.
  unfold _check_clear_recommendations.
  destruct (search IGNORECASE pros_cons text); [|auto with briefly].
  destruct (negb _); auto with briefly.
Qed.

Lemma check_bottom_line_first_returns text :
  returns (_check_bottom_line_first text).
Proof.
  unfold _check_bottom_line_first.
  destruct (_ <? 3)%nat; [auto with briefly|].
  destruct (negb _); auto with briefly.
Qed.

Lemma check_adequate_context_returns text :
  returns (_check_adequate_context text).
Proof.
  unfold _check_adequate_context.
  destruct (200 <? _)%nat; [|auto with briefly].
  destruct (negb _ && _); auto with briefly.
Qed.

Lemma check_conciseness_returns text : returns (_check_conciseness text).
Proof.
  unfold _check_conciseness.
  destruct (exceeds_percent _ _ _); auto with briefly.
Qed.

Lemma check_clarity_simplicity_returns text :
  returns (_check_clarity_simplicity text).
Proof.
  unfold _check_clarity_simplicity.
  destruct (jargon_loop_returns jargon_patterns text []) as [issues ->]; simpl.
  auto with briefly.
Qed.

Lemma apply_bottom_line_first_returns text :
  returns (_apply_bottom_line_first text).
Proof.
  unfold _apply_bottom_line_first.
  destruct (2 <? _)%nat.
  - destruct (move_conclusion_returns (stripped_sentences text) 0
                (stripped_sentences text) eq_refl) as [l ->].
    simpl; auto with briefly.
  - simpl; auto with briefly.
Qed.

Lemma apply_clear_recommendations_returns text :
  returns (_apply_clear_recommendations text).
Proof.
  unfold _apply_clear_recommendations.
  destruct (negb _); [|auto with briefly].
  destruct (search _ _ _); auto with briefly.
Qed.

#[local] Hint Resolve check_super_specific_how_returns
  check_clear_recommendations_returns check_bottom_line_first_returns
  check_adequate_context_returns check_conciseness_returns
  check_clarity_simplicity_returns paragraph_loop_returns : briefly.

(** A function whose body is [Ok _] or ends in a loop known to return. *)
Ltac returns_by_body :=
  match goal with
  | |- returns (?f _ _) => unfold f
  | |- returns (?f _) => unfold f
  end;
  auto with briefly.

Lemma rules_total : Forall (fun entry => total_rule (snd entry)) rules.
Proof.
  unfold rules.
  repeat (apply Forall_cons; [split; simpl; intros|]); try apply Forall_nil;
    first [solve [auto with briefly] | returns_by_body].
Qed.

Lemma rules_names :
  keys rules =
  [ "super_specific_how"; "cut_backstory"; "clear_recommendations";
    "bottom_line_first"; "adequate_context"; "sentence_structure"; "active_voice";
    "logical_flow"; "conciseness"; "clarity_simplicity"; "eliminate_clutter" ].
Proof. reflexivity. Qed.

Lemma rules_NoDup : NoDup (keys rules).
Proof.
  rewrite rules_names.
  repeat (apply NoDup_cons; [simpl; intuition discriminate|]).
  apply NoDup_nil.
Qed.

(** ** What [analyze_text] computes *)

Definition issues_of (rule : Rule) (text : string) : list string :=
  match check rule text with
  | Ok issues => issues
  | Raise _ => []
  end.

Definition suggester_output (rule : Rule) (text : string) (issues : list string)
  : list string :=
  match suggest rule text issues with
  | Ok l => l
  | Raise _ => []
  end.

Definition result_of (text : string) (entry : string * Rule) : string * RuleResult :=
  (fst entry,
   mkRuleResult (List.length (issues_of (snd entry) text) =? 0)%nat
                (issues_of (snd entry) text)
                (description (snd entry))).

Definition suggestions_of (text : string) (entry : string * Rule) : list string :=
  if Lst.nonempty (issues_of (snd entry) text)
  then suggester_output (snd entry) text (issues_of (snd entry) text)
  else [].

Lemma dict_set_new {V : Type} (d : list (string * V)) k v :
  ~ In k (keys d) -> dict_set d k v = d ++ [(k, v)].
Proof.
  induction d as [|[k' v'] d IH]; simpl; intros Hk.
  - reflexivity.
  - destruct (String.eqb k' k) eqn:E.
    + apply String.eqb_eq in E; tauto.
    + rewrite IH by tauto; reflexivity.
Qed.

Lemma analyze_loop_eq todo text results :
  Forall (fun entry => total_rule (snd entry)) todo ->
  NoDup (keys todo) ->
  (forall k, In k (keys todo) -> ~ In k (keys (analysis results))) ->
  analyze_loop todo text results =
  Ok (mkReport (original_text results)
               (analysis results ++ map (result_of text) todo)
               (suggestions results ++ flat_map (suggestions_of text) todo)
               (improved_text results)).
Proof.
  revert results; induction todo as [|[rule_name rule] todo IH];
    intros results Htot Hnd Hfresh; simpl.
  - rewrite !app_nil_r; destruct results; reflexivity.
  - inversion Htot as [|? ? [Hc Hs] Htot']; subst.
    inversion Hnd as [|? ? Hnotin Hnd']; subst.
    simpl in Hc, Hs.
    unfold result_of, suggestions_of, issues_of, suggester_output; simpl.
    destruct (Hc text) as [issues Hissues]; rewrite Hissues; simpl.
    rewrite dict_set_new by (apply Hfresh; simpl; auto).
    assert (Hfresh' : forall k, In k (keys todo) ->
              ~ In k (keys (analysis results ++
                  [(rule_name,
                    mkRuleResult (List.length issues =? 0)%nat issues (description rule))]))).
    { intros k Hk; unfold keys; rewrite map_app, in_app_iff; simpl.
      intros [Hin|[<-|[]]].
      - apply (Hfresh k); simpl; auto.
      - apply Hnotin, Hk. }
    destruct issues as [|issue issues]; simpl.
    + rewrite IH by assumption; simpl.
      rewrite <- app_assoc; reflexivity.
    + destruct (Hs text (issue :: issues)) as [l Hl]; rewrite Hl; simpl.
      rewrite IH by assumption; simpl.
      rewrite <- !app_assoc; reflexivity.
Qed.

Lemma analyze_text_eq text :
  analyze_text text =
  Ok (mkReport text (map (result_of text) rules)
               (flat_map (suggestions_of text) rules) text).
Proof.
  unfold analyze_text.
  rewrite analyze_loop_eq; auto using rules_total, rules_NoDup.
Qed.

(** [d.get(k)] on an insertion-ordered dict. *)
Fixpoint dict_get {V : Type} (d : list (string * V)) (k : string) : option V :=
  match d with
  | [] => None
  | (k', v) :: d' => if String.eqb k' k then Some v else dict_get d' k
  end.

Lemma dict_get_result_of text (todo : list (string * Rule)) entry :
  NoDup (keys todo) -> In entry todo ->
  dict_get (map (result_of text) todo) (fst entry) = Some (snd (result_of text entry)).
Proof.
  induction todo as [|e todo IH]; simpl; intros Hnd Hin; [tauto|].
  inversion Hnd as [|? ? Hnotin Hnd']; subst.
  destruct Hin as [->|Hin].
  - rewrite String.eqb_refl; reflexivity.
  - destruct (String.eqb (fst e) (fst entry)) eqn:E.
    + apply String.eqb_eq in E; exfalso; apply Hnotin.
      rewrite E; apply in_map; exact Hin.
    + apply IH; assumption.
Qed.

Lemma passed_iff_no_issue (l : list string) :
  (List.length l =? 0)%nat = true <-> l = [].
Proof. destruct l; simpl; split; intros H; congruence. Qed.

(** ** The report of [analyze_text] (claims C1, C2, C3, C4, C10) *)

(** The suggestions a rule contributes to a report: the output of its
    suggester on the issues recorded for it when it did not pass,
    nothing when it passed. *)
Definition failing_rule_suggestions (text : string) (report : Report)
  (entry : string * Rule) : list string :=
  match dict_get (analysis report) (fst entry) with
  | Some rule_result =>
      if passed rule_result then []
      else suggester_output (snd entry) text (issues rule_result)
  | None => []
  end.

(** C10.  For every text, [analyze_text] returns a report whose
    [original_text] is the text and whose [analysis] has exactly the
    eleven rule names as keys, in the order of the registry. *)
Theorem analyze_text_keys (text : string) :
  exists report,
    analyze_text text = Ok report
    /\ original_text report = text
    /\ keys (analysis report) =
       [ "super_specific_how"; "cut_backstory"; "clear_recommendations";
         "bottom_line_first"; "adequate_context"; "sentence_structure";
         "active_voice"; "logical_flow"; "conciseness"; "clarity_simplicity";
         "eliminate_clutter" ]
    /\ keys (analysis report) = keys rules.
Proof.
  eexists; split; [apply analyze_text_eq|].
  cbn [original_text analysis].
  repeat split; reflexivity.
Qed.

(** C2.  For every text, every rule of the registry has a result in
    the report of [analyze_text], and in each result [passed] is true
    exactly when [issues] is empty. *)
Theorem analyze_text_passed_iff_no_issues (text : string) :
  exists report,
    analyze_text text = Ok report
    /\ keys (analysis report) = keys rules
    /\ Forall (fun item => passed (snd item) = true <-> issues (snd item) = [])
              (analysis report).
Proof.
  eexists; split; [apply analyze_text_eq|].
  cbn [analysis]; split.
  - reflexivity.
  - apply Forall_map, Forall_forall; intros entry _.
    apply passed_iff_no_issue.
Qed.

(** C3.  For every text, the suggestions of the report are the
    suggester outputs of the rules that did not pass, concatenated in
    the order of the registry; a rule that passed contributes nothing,
    and the length is the sum of the lengths of those outputs. *)
Theorem analyze_text_suggestions (text : string) :
  exists report,
    analyze_text text = Ok report
    /\ suggestions report = flat_map (failing_rule_suggestions text report) rules
    /\ List.length (suggestions report) =
       list_sum (map (fun entry =>
                        List.length (failing_rule_suggestions text report entry))
                     rules).
Proof.
  eexists; split; [apply analyze_text_eq|].
  cbn [suggestions].
  assert (H : flat_map (suggestions_of text) rules =
              flat_map (failing_rule_suggestions text
                          (mkReport text (map (result_of text) rules)
                             (flat_map (suggestions_of text) rules) text)) rules).
  { rewrite !flat_map_concat_map; f_equal.
    apply map_ext_in; intros entry Hin.
    unfold failing_rule_suggestions; cbn [analysis].
    rewrite (dict_get_result_of text rules entry rules_NoDup Hin).
    unfold suggestions_of, result_of; cbn [snd passed issues].
    destruct (issues_of (snd entry) text); reflexivity. }
  split; [exact H|].
  rewrite H at 1; apply length_flat_map.
Qed.

(** C4.  Every checker and every suggester of the registry returns on
    every text (and every issue list), and [analyze_text] returns a
    report on every text. *)
Theorem analyze_text_total :
  Forall (fun entry => total_rule (snd entry)) rules
  /\ forall text, returns (analyze_text text).
Proof.
  split; [exact rules_total|].
  intros text; eexists; apply analyze_text_eq.
Qed.

(** C1, as amended.  For every text, the [improved_text] of the report
    of [analyze_text] is the text itself: [analyze_text] applies no
    repair. *)
Theorem analyze_text_improved_text (text : string) :
  exists report,
    analyze_text text = Ok report /\ improved_text report = text.
Proof.
  eexists; split; [apply analyze_text_eq | reflexivity].
Qed.

(** C1 fails as stated: on a text whose conclusion comes third, the
    repairs give another text than the [improved_text] of the report. *)
Lemma analyze_text_improved_text_not_repaired :
  exists report,
    analyze_text "A. B. I recommend we proceed." = Ok report
    /\ generate_improved_text report = Ok "A. I recommend we proceed. B."
    /\ improved_text report = "A. B. I recommend we proceed."
    /\ Ok (improved_text report) <> generate_improved_text report.
Proof.
  eexists; split; [vm_compute; reflexivity|].
  split; [vm_compute; reflexivity|].
  split; [reflexivity|].
  vm_compute; discriminate.
Qed.

(** ** [generate_improved_text] on a report without issue (claim C5) *)

Lemma improve_loop_all_passed items text :
  Forall (fun item => passed (snd item) = true) items ->
  improve_loop items text = Ok text.
Proof.
  induction 1 as [|[rule_name rule_analysis] items Hp _ IH]; simpl in *.
  - reflexivity.
  - rewrite Hp; simpl; exact IH.
Qed.

(** C5.  When every rule passed in the report of [analyze_text] on a
    text, [generate_improved_text] returns that text unchanged. *)
Theorem generate_improved_text_all_passed (text : string) (report : Report) :
  analyze_text text = Ok report ->
  Forall (fun item => passed (snd item) = true) (analysis report) ->
  generate_improved_text report = Ok text.
Proof.
  intros Hrep Hall.
  rewrite analyze_text_eq in Hrep; injection Hrep as <-.
  unfold generate_improved_text; cbn [analysis original_text] in *.
  apply improve_loop_all_passed; exact Hall.
Qed.

Lemma generate_improved_text_all_passed_witness :
  exists report,
    analyze_text "We ship the release on Friday." = Ok report
    /\ generate_improved_text report = Ok "We ship the release on Friday.".
Proof.
  eexists; split; [vm_compute; reflexivity|].
  apply (generate_improved_text_all_passed "We ship the release on Friday.").
  - vm_compute; reflexivity.
  - vm_compute; repeat constructor.
Defined.

(** ** The sentence-count guard of the bottom-line repair (claim C6) *)

(** C6, as amended.  On a text with fewer than three non-blank
    sentences the bottom-line repair moves no sentence: it returns the
    stripped non-blank sentences in their order, joined by a period and
    a space, with a final period when the text ended with one. *)
Theorem apply_bottom_line_first_short (text : string) :
  List.length (stripped_sentences text) < 3 ->
  _apply_bottom_line_first text =
  Ok (Str.join ". " (stripped_sentences text)
      +++ (if Str.endswith_dot text then "." else "")).
Proof.
  intros Hshort; unfold _apply_bottom_line_first.
  replace (2 <? List.length (stripped_sentences text))%nat with false
    by (symmetry; apply Nat.ltb_ge; lia).
  reflexivity.
Qed.

Lemma apply_bottom_line_first_short_witness :
  List.length (stripped_sentences "A.B.") < 3
  /\ _apply_bottom_line_first "A.B." = Ok "A. B.".
Proof.
  split; [vm_compute; lia|].
  apply (apply_bottom_line_first_short "A.B."); vm_compute; lia.
Defined.

(** C6 fails as stated: a text of two sentences on which the rule
    fails is not returned unchanged, neither by the repair step nor by
    [generate_improved_text]. *)
Lemma apply_bottom_line_first_short_changes :
  exists report,
    analyze_text "A.B." = Ok report
    /\ List.length (stripped_sentences "A.B.") = 2
    /\ _apply_bottom_line_first "A.B." = Ok "A. B."
    /\ generate_improved_text report = Ok "A. B."
    /\ generate_improved_text report <> Ok "A.B.".
Proof.
  eexists; split; [vm_compute; reflexivity|].
  repeat split; try (vm_compute; reflexivity).
  vm_compute; discriminate.
Qed.

(** ** The word-count threshold of [super_specific_how] (claim C7) *)

(** No vague pattern has a match in the text. *)
Definition vague_free (text : string) : bool :=
  forallb (fun pattern => negb (Lst.nonempty (findall IGNORECASE pattern text)))
          vague_patterns.

(** No specific-content marker occurs in the text. *)
Definition marker_free (text : string) : bool :=
  negb (any_search IGNORECASE specific_indicators text).

Lemma vague_loop_free patterns text issues :
  forallb (fun pattern => negb (Lst.nonempty (findall IGNORECASE pattern text)))
          patterns = true ->
  vague_loop patterns text issues = Ok issues.
Proof.
  induction patterns as [|pattern patterns IH]; simpl; intros H.
  - reflexivity.
  - apply andb_true_iff in H as [Hhead Htail].
    destruct (Lst.nonempty (findall IGNORECASE pattern text)); [discriminate|].
    apply IH, Htail.
Qed.

Lemma check_super_specific_how_plain text :
  vague_free text = true -> marker_free text = true ->
  _check_super_specific_how text =
  Ok (if (100 <? word_count text)%nat then [lacks_specifics] else []).
Proof.
  unfold vague_free, marker_free, _check_super_specific_how; intros Hv Hm.
  rewrite (vague_loop_free _ _ _ Hv); simpl.
  rewrite Hm; simpl.
  destruct (100 <? word_count text)%nat; reflexivity.
Qed.

(** C7, as amended.  On a text of exactly 101 words with no match of a
    vague pattern and no specific-content marker, the checker reports
    the one issue that the text lacks specific implementation details;
    on such a text of exactly 100 words it reports nothing. *)
Theorem check_super_specific_how_threshold (long short : string) :
  vague_free long = true -> marker_free long = true ->
  vague_free short = true -> marker_free short = true ->
  word_count long = 101 -> word_count short = 100 ->
  _check_super_specific_how long = Ok [lacks_specifics]
  /\ _check_super_specific_how short = Ok [].
Proof.
  intros Hv Hm Hv' Hm' Hlong Hshort.
  rewrite (check_super_specific_how_plain long Hv Hm), Hlong.
  rewrite (check_super_specific_how_plain short Hv' Hm'), Hshort.
  split; reflexivity.
Qed.

(** A hundred words of plain prose, and the same with one word more. *)
Definition prose_100 : string :=
  Str.join " " (repeat "the team ships good work" 20).

Definition prose_101 : string := prose_100 +++ " daily".

Lemma check_super_specific_how_threshold_witness :
  _check_super_specific_how prose_101 = Ok [lacks_specifics]
  /\ _check_super_specific_how prose_100 = Ok [].
Proof.
  apply (check_super_specific_how_threshold prose_101 prose_100);
    vm_compute; reflexivity.
Defined.

(** C7 fails as stated: on exactly 100 words without vague pattern and
    without marker the checker reports nothing. *)
Lemma check_super_specific_how_100_words :
  word_count prose_100 = 100
  /\ vague_free prose_100 = true
  /\ marker_free prose_100 = true
  /\ _check_super_specific_how prose_100 = Ok []
  /\ _check_super_specific_how prose_100 <> Ok [lacks_specifics].
Proof.
  repeat split; try (vm_compute; reflexivity).
  vm_compute; discriminate.
Qed.

(** ** The single issue of [bottom_line_first] (claim C8) *)

Lemma check_bottom_line_first_at_most_one text :
  exists issues,
    _check_bottom_line_first text = Ok issues /\ List.length issues <= 1.
Proof.
  unfold _check_bottom_line_first.
  destruct (_ <? 3)%nat; [exists []; simpl; auto|].
  destruct (negb _); eexists; split; try reflexivity; simpl; lia.
Qed.

Lemma check_bottom_line_first_fires text :
  3 <= List.length (Str.split_on "." text) ->
  has_early_conclusion text = false ->
  _check_bottom_line_first text = Ok [buried_conclusion].
Proof.
  intros Hlen Hnone; unfold _check_bottom_line_first.
  replace (List.length (Str.split_on "." text) <? 3)%nat with false
    by (symmetry; apply Nat.ltb_ge; lia).
  rewrite Hnone; reflexivity.
Qed.

Lemma check_bottom_line_first_below_three text :
  List.length (Str.split_on "." text) < 3 ->
  _check_bottom_line_first text = Ok [].
Proof.
  intros Hlen; unfold _check_bottom_line_first.
  replace (List.length (Str.split_on "." text) <? 3)%nat with true
    by (symmetry; apply Nat.ltb_lt; exact Hlen).
  reflexivity.
Qed.

(** C8, as amended.  On a text of at least three period-delimited
    segments whose first third holds no conclusion marker the checker
    reports exactly one issue, whatever the length of the text; on a
    text of fewer than three segments it reports no issue; and on no
    text does it report more than one. *)
Theorem check_bottom_line_first_single_issue (text : string) :
  (3 <= List.length (Str.split_on "." text) ->
   has_early_conclusion text = false ->
   _check_bottom_line_first text = Ok [buried_conclusion])
  /\ (List.length (Str.split_on "." text) < 3 ->
      _check_bottom_line_first text = Ok [])
  /\ (exists issues,
        _check_bottom_line_first text = Ok issues /\ List.length issues <= 1).
Proof.
  split; [|split].
  - apply check_bottom_line_first_fires.
  - apply check_bottom_line_first_below_three.
  - apply check_bottom_line_first_at_most_one.
Qed.

Lemma check_bottom_line_first_single_issue_witness :
  _check_bottom_line_first "We met on Monday. The room was small. It rained."
  = Ok [buried_conclusion]
  /\ _check_bottom_line_first "We shipped the release. It went well" = Ok [].
Proof.
  split.
  - apply (proj1 (check_bottom_line_first_single_issue
                    "We met on Monday. The room was small. It rained.")).
    + vm_compute; lia.
    + vm_compute; reflexivity.
  - apply (proj1 (proj2 (check_bottom_line_first_single_issue
                           "We shipped the release. It went well"))).
    vm_compute; lia.
Defined.

(** C8 fails as stated: a text of fewer than three segments gets no
    issue although its first third holds no conclusion marker. *)
Lemma check_bottom_line_first_short_text :
  has_early_conclusion "We shipped the release. It went well" = false
  /\ _check_bottom_line_first "We shipped the release. It went well" = Ok []
  /\ _check_bottom_line_first "We shipped the release. It went well"
     <> Ok [buried_conclusion].
Proof.
  repeat split; try (vm_compute; reflexivity).
  vm_compute; discriminate.
Qed.

(** ** A conclusion in the third sentence (claim C9) *)

(** *** Facts on strings *)

Lemma append_empty_r (s : string) : s +++ EmptyString = s.
Proof. induction s as [|c s IH]; simpl; congruence. Qed.

Lemma append_associative (a b c : string) : (a +++ b) +++ c = a +++ (b +++ c).
Proof. induction a as [|x a IH]; simpl; congruence. Qed.

Lemma has_append (x : ascii) (a b : string) :
  Str.has x (a +++ b) = Str.has x a || Str.has x b.
Proof.
  unfold Str.has; induction a as [|c a IH]; simpl.
  - reflexivity.
  - rewrite IH; apply orb_assoc.
Qed.

Lemma has_String (x c : ascii) (s : string) :
  Str.has x (String c s) = Ascii.eqb x c || Str.has x s.
Proof. reflexivity. Qed.

Lemma split_on_absent (sep : ascii) (s : string) :
  Str.has sep s = false -> Str.split_on sep s = [s].
Proof.
  induction s as [|c s IH]; simpl; intros H.
  - reflexivity.
  - rewrite has_String in H; apply orb_false_iff in H as [Hc Hs].
    rewrite Ascii.eqb_sym, Hc, (IH Hs); reflexivity.
Qed.

Lemma split_on_append (sep : ascii) (a b : string) :
  Str.has sep a = false ->
  Str.split_on sep (a +++ String sep b) = a :: Str.split_on sep b.
Proof.
  induction a as [|c a IH]; simpl; intros H.
  - rewrite Ascii.eqb_refl; reflexivity.
  - rewrite has_String in H; apply orb_false_iff in H as [Hc Ha].
    rewrite Ascii.eqb_sym, Hc, (IH Ha); reflexivity.
Qed.

Lemma nonempty_append_r (a b : string) :
  Str.nonempty b = true -> Str.nonempty (a +++ b) = true.
Proof. destruct a; simpl; auto. Qed.

Lemma rstrip_append (a b : string) :
  Str.rstrip (a +++ b) =
  if Str.nonempty (Str.rstrip b) then a +++ Str.rstrip b else Str.rstrip a.
Proof.
  induction a as [|c a IH]; simpl.
  - destruct (Str.rstrip b); reflexivity.
  - rewrite IH.
    destruct (Str.nonempty (Str.rstrip b)) eqn:E; [|reflexivity].
    pose proof (nonempty_append_r a _ E) as Hne.
    destruct (a +++ Str.rstrip b); [discriminate | reflexivity].
Qed.

Lemma lstrip_append (a : string) (c : ascii) (b : string) :
  Chr.is_space c = false ->
  exists a', Str.lstrip (a +++ String c b) = a' +++ String c b.
Proof.
  intros Hc; induction a as [|x a IH]; simpl.
  - rewrite Hc; exists EmptyString; reflexivity.
  - destruct (Chr.is_space x).
    + exact IH.
    + exists (String x a); reflexivity.
Qed.

Lemma last_is_append (x : ascii) (a b : string) :
  Str.nonempty b = true -> Str.last_is x (a +++ b) = Str.last_is x b.
Proof.
  intros Hb; induction a as [|c a IH]; simpl.
  - reflexivity.
  - pose proof (nonempty_append_r a b Hb) as Hne.
    destruct (a +++ b) eqn:E; [discriminate | exact IH].
Qed.

Lemma last_is_absent (x : ascii) (s : string) :
  Str.has x s = false -> Str.last_is x s = false.
Proof.
  induction s as [|c s IH]; simpl; intros H.
  - reflexivity.
  - rewrite has_String in H; apply orb_false_iff in H as [Hc Hs].
    destruct s; [rewrite Ascii.eqb_sym; exact Hc | exact (IH Hs)].
Qed.

(** *** Facts on the search *)

Lemma search_from_here flags r p s :
  matches_at flags r p s = true -> search_from flags r p s = true.
Proof. intros H; destruct s; simpl; rewrite H; reflexivity. Qed.

(** A match right after the character [c] is found by a search of any
    text in which that position occurs. *)
Lemma search_from_append flags r p (a : string) (c : ascii) (s : string) :
  matches_at flags r (Some c) s = true ->
  search_from flags r p (a +++ String c s) = true.
Proof.
  intros H; revert p; induction a as [|x a IH]; intros p; simpl.
  - rewrite (search_from_here _ _ _ _ H); apply orb_true_r.
  - rewrite IH; apply orb_true_r.
Qed.

Lemma search_append flags r (a : string) (c : ascii) (s : string) :
  matches_at flags r (Some c) s = true ->
  search flags r (a +++ String c s) = true.
Proof. apply search_from_append. Qed.

(** *** The scenario *)

Definition recommendation : string := "I recommend we proceed".

(** Three sentences, the periods between them, and a final period or
    none. *)
Definition three_sentences (s0 s1 s2 : string) (final_dot : bool) : string :=
  s0 +++ "." +++ s1 +++ "." +++ s2 +++ (if final_dot then "." else "").

Definition no_dot (s : string) : Prop := Str.has "." s = false.

Lemma matches_recommend flags r (a b : string) :
  (forall s, matches_at flags r (Some " "%char) ("recommend we proceed" +++ s) = true) ->
  search flags r (a +++ recommendation +++ b) = true.
Proof.
  intros H.
  replace (a +++ recommendation +++ b)
    with ((a +++ "I") +++ String " " ("recommend we proceed" +++ b))
    by (rewrite append_associative; reflexivity).
  apply search_append, H.
Qed.

Lemma conclusion_in_recommendation (a b : string) :
  any_search IGNORECASE conclusion_patterns (a +++ recommendation +++ b) = true.
Proof.
  unfold any_search, conclusion_patterns; cbn [existsb].
  rewrite matches_recommend; [reflexivity|].
  intros s; reflexivity.
Qed.

Lemma clear_recommendations_kept (a b : string) :
  _apply_clear_recommendations (a +++ recommendation +++ b)
  = Ok (a +++ recommendation +++ b).
Proof.
  unfold _apply_clear_recommendations.
  rewrite matches_recommend; [reflexivity|].
  intros s; reflexivity.
Qed.

Lemma strip_recommendation (pre post : string) :
  exists a, Str.strip (pre +++ recommendation +++ post)
            = a +++ recommendation +++ Str.rstrip post.
Proof.
  unfold Str.strip.
  assert (Hr : Str.rstrip (recommendation +++ post)
               = recommendation +++ Str.rstrip post).
  { rewrite rstrip_append.
    destruct (Str.rstrip post); reflexivity. }
  rewrite rstrip_append, Hr.
  change (Str.nonempty (recommendation +++ Str.rstrip post)) with true.
  cbv iota.
  apply (lstrip_append pre "I"); reflexivity.
Qed.

Lemma stripped_three_sentences s0 s1 s2 final_dot :
  no_dot s0 -> no_dot s1 -> no_dot s2 ->
  Str.nonempty (Str.strip s0) = true ->
  Str.nonempty (Str.strip s1) = true ->
  Str.nonempty (Str.strip s2) = true ->
  Str.split_on "." (three_sentences s0 s1 s2 final_dot)
  = [s0; s1; s2] ++ (if final_dot then [EmptyString] else [])
  /\ stripped_sentences (three_sentences s0 s1 s2 final_dot)
     = [Str.strip s0; Str.strip s1; Str.strip s2].
Proof.
  intros H0 H1 H2 N0 N1 N2.
  assert (Hsplit : Str.split_on "." (three_sentences s0 s1 s2 final_dot)
                   = [s0; s1; s2] ++ (if final_dot then [EmptyString] else [])).
  { unfold three_sentences.
    change ("." +++ s1 +++ "." +++ s2 +++ (if final_dot then "." else ""))
      with (String "." (s1 +++ String "." (s2 +++ (if final_dot then "." else "")))).
    rewrite (split_on_append "." s0 _ H0), (split_on_append "." s1 _ H1).
    destruct final_dot.
    - rewrite (split_on_append "." s2 _ H2); reflexivity.
    - rewrite append_empty_r, (split_on_absent "." s2 H2); reflexivity. }
  split; [exact Hsplit|].
  unfold stripped_sentences; rewrite Hsplit.
  destruct final_dot; cbn [app filter]; rewrite N0, N1, N2; reflexivity.
Qed.

Lemma endswith_dot_three_sentences s0 s1 s2 final_dot :
  Str.nonempty s2 = true -> Str.last_is "." s2 = false ->
  Str.endswith_dot (three_sentences s0 s1 s2 final_dot) = final_dot.
Proof.
  intros Hne Hlast; unfold Str.endswith_dot, three_sentences.
  rewrite <- !append_associative.
  destruct final_dot.
  - rewrite last_is_append; reflexivity.
  - rewrite append_empty_r, last_is_append by exact Hne.
    exact Hlast.
Qed.

Lemma improve_loop_other rule_name rule_analysis items text :
  String.eqb rule_name "bottom_line_first" = false ->
  String.eqb rule_name "clear_recommendations" = false ->
  improve_loop ((rule_name, rule_analysis) :: items) text = improve_loop items text.
Proof.
  intros H1 H2; cbn [improve_loop]; rewrite H1, H2.
  destruct (negb _ && _); reflexivity.
Qed.

Lemma improve_loop_clear rule_analysis items text :
  _apply_clear_recommendations text = Ok text ->
  improve_loop (("clear_recommendations", rule_analysis) :: items) text
  = improve_loop items text.
Proof.
  intros H; cbn [improve_loop].
  change (String.eqb "clear_recommendations" "bottom_line_first") with false.
  change (String.eqb "clear_recommendations" "clear_recommendations") with true.
  cbv iota; rewrite H.
  destruct (negb _ && _); reflexivity.
Qed.

Lemma improve_loop_bottom rule_analysis items text :
  passed rule_analysis = false -> issues rule_analysis <> [] ->
  improve_loop (("bottom_line_first", rule_analysis) :: items) text
  = (text' <- _apply_bottom_line_first text ;; improve_loop items text').
Proof.
  intros Hp Hi; cbn [improve_loop]; rewrite Hp.
  destruct (issues rule_analysis); [congruence | reflexivity].
Qed.

(** The repair on three sentences of which the third holds a
    conclusion: that sentence becomes the second. *)
Lemma move_conclusion_third a b c :
  any_search IGNORECASE conclusion_patterns c = true ->
  move_conclusion [a; b; c] 0 [a; b; c] = Ok [a; c; b].
Proof.
  intros Hc; cbn [move_conclusion].
  change (1 <? 0)%nat with false; change (1 <? 1)%nat with false.
  change (1 <? 2)%nat with true; rewrite Hc.
  destruct (any_search IGNORECASE conclusion_patterns a),
           (any_search IGNORECASE conclusion_patterns b); reflexivity.
Qed.

Lemma three_sentences_recommendation s0 s1 pre post final_dot :
  three_sentences s0 s1 (pre +++ recommendation +++ post) final_dot
  = (s0 +++ "." +++ s1 +++ "." +++ pre) +++ recommendation
    +++ post +++ (if final_dot then "." else "").
Proof. unfold three_sentences; rewrite !append_associative; reflexivity. Qed.

(** C9.  Take three non-blank sentences separated by periods, with or
    without a final period, of which the third contains "I recommend
    we proceed" and the first two hold no conclusion marker.  The
    checker reports the buried conclusion, and [generate_improved_text]
    on the report of [analyze_text] returns the text in which the third
    sentence has become the second. *)
Theorem recommendation_moved_second (s0 s1 pre post : string) (final_dot : bool) :
  no_dot s0 -> no_dot s1 -> no_dot pre -> no_dot post ->
  Str.nonempty (Str.strip s0) = true ->
  Str.nonempty (Str.strip s1) = true ->
  any_search IGNORECASE conclusion_indicators s0 = false ->
  any_search IGNORECASE conclusion_indicators s1 = false ->
  _check_bottom_line_first
    (three_sentences s0 s1 (pre +++ recommendation +++ post) final_dot)
  = Ok [buried_conclusion]
  /\ exists report,
       analyze_text
         (three_sentences s0 s1 (pre +++ recommendation +++ post) final_dot)
       = Ok report
       /\ generate_improved_text report
          = Ok (Str.join ". " [ Str.strip s0;
                                Str.strip (pre +++ recommendation +++ post);
                                Str.strip s1 ]
                +++ (if final_dot then "." else "")).
Proof.
  intros D0 D1 Dpre Dpost N0 N1 M0 _.
  set (s2 := pre +++ recommendation +++ post).
  set (text := three_sentences s0 s1 s2 final_dot).
  assert (D2 : no_dot s2).
  { unfold no_dot, s2; rewrite !has_append, Dpre, Dpost; reflexivity. }
  destruct (strip_recommendation pre post) as [a Ha]; fold s2 in Ha.
  assert (N2 : Str.nonempty (Str.strip s2) = true).
  { rewrite Ha; apply nonempty_append_r; reflexivity. }
  destruct (stripped_three_sentences s0 s1 s2 final_dot D0 D1 D2 N0 N1 N2)
    as [Hsplit Hstripped]; fold text in Hsplit, Hstripped.
  assert (Hcheck : _check_bottom_line_first text = Ok [buried_conclusion]).
  { apply check_bottom_line_first_fires.
    - rewrite Hsplit; destruct final_dot; simpl; lia.
    - unfold has_early_conclusion, first_third; rewrite Hsplit.
      destruct final_dot; simpl; rewrite M0; reflexivity. }
  assert (Hclear : _apply_clear_recommendations text = Ok text).
  { unfold text, s2; rewrite three_sentences_recommendation.
    apply clear_recommendations_kept. }
  assert (Hmove : _apply_bottom_line_first text
                  = Ok (Str.join ". " [Str.strip s0; Str.strip s2; Str.strip s1]
                        +++ (if final_dot then "." else ""))).
  { unfold _apply_bottom_line_first; rewrite Hstripped.
    change (2 <? List.length [Str.strip s0; Str.strip s1; Str.strip s2])%nat
      with true; cbv iota.
    rewrite move_conclusion_third
      by (rewrite Ha; apply conclusion_in_recommendation).
    unfold text; rewrite endswith_dot_three_sentences.
    - reflexivity.
    - apply nonempty_append_r; reflexivity.
    - apply last_is_absent, D2. }
  split; [exact Hcheck|].
  eexists; split; [apply analyze_text_eq|].
  unfold generate_improved_text; cbn [analysis original_text].
  unfold rules, result_of; cbn [map fst snd description check].
  rewrite 2 improve_loop_other by reflexivity.
  rewrite improve_loop_clear by exact Hclear.
  rewrite improve_loop_bottom;
    [| unfold issues_of; cbn [passed check]; rewrite Hcheck; reflexivity
     | unfold issues_of; cbn [issues check]; rewrite Hcheck; discriminate].
  rewrite Hmove; cbn [bind].
  rewrite 7 improve_loop_other by reflexivity.
  reflexivity.
Qed.

Lemma recommendation_moved_second_witness :
  _check_bottom_line_first
    "We reviewed the plan. The costs are low. I recommend we proceed."
  = Ok [buried_conclusion]
  /\ exists report,
       analyze_text "We reviewed the plan. The costs are low. I recommend we proceed."
       = Ok report
       /\ generate_improved_text report
          = Ok "We reviewed the plan. I recommend we proceed. The costs are low.".
Proof.
  apply (recommendation_moved_second
           "We reviewed the plan" " The costs are low" " " "" true);
    vm_compute; reflexivity.
Defined.

(** * Further properties of the engine *)

(** ** What a report records for each rule *)

Lemma issues_of_check rule text :
  total_rule rule -> check rule text = Ok (issues_of rule text).
Proof.
  intros [Hc _]; unfold issues_of.
  destruct (Hc text) as [l ->]; reflexivity.
Qed.

(** X1.  In the report of [analyze_text], looking a rule of the
    registry up by its name gives a result that holds the issues its
    checker returned on the text and the description of the rule. *)
Theorem analyze_text_rule_results (text : string) :
  exists report,
    analyze_text text = Ok report
    /\ Forall (fun entry =>
                 exists rule_result,
                   dict_get (analysis report) (fst entry) = Some rule_result
                   /\ check (snd entry) text = Ok (issues rule_result)
                   /\ rr_description rule_result = description (snd entry))
              rules.
Proof.
  eexists; split; [apply analyze_text_eq|].
  cbn [analysis]; apply Forall_forall; intros entry Hin.
  eexists; split; [apply (dict_get_result_of text rules entry rules_NoDup Hin)|].
  split; [|reflexivity].
  cbn [result_of snd issues]; apply issues_of_check.
  pose proof rules_total as Htot.
  rewrite Forall_forall in Htot; exact (Htot entry Hin).
Qed.

(** ** Suggestions and verdicts *)

(** The suggesters are constant: their output is never empty and does
    not depend on the text or on the issues. *)
Definition fixed_advice (entry : string * Rule) : Prop :=
  forall text issues,
    suggester_output (snd entry) text issues <> []
    /\ suggester_output (snd entry) text issues
       = suggester_output (snd entry) EmptyString [].

Lemma suggesters_fixed : Forall fixed_advice rules.
Proof.
  unfold rules.
  repeat (apply Forall_cons;
          [intros text issues; split; [discriminate | reflexivity]|]).
  apply Forall_nil.
Qed.

Definition advice_size (entry : string * Rule) : nat :=
  List.length (suggester_output (snd entry) EmptyString []).

Lemma suggestions_of_unfold text entry :
  suggestions_of text entry
  = if Lst.nonempty (issues_of (snd entry) text)
    then suggester_output (snd entry) text (issues_of (snd entry) text)
    else [].
Proof. reflexivity. Qed.

Lemma suggestions_of_nil text (todo : list (string * Rule)) :
  Forall fixed_advice todo ->
  (flat_map (suggestions_of text) todo = []
   <-> Forall (fun item => passed (snd item) = true) (map (result_of text) todo))
  /\ List.length (flat_map (suggestions_of text) todo)
     <= list_sum (map advice_size todo).
Proof.
  induction 1 as [|entry todo Hentry _ [IHnil IHlen]]; cbn [flat_map map].
  - split; [split; auto|simpl; lia].
  - change (list_sum (advice_size entry :: map advice_size todo))
      with (advice_size entry + list_sum (map advice_size todo)).
    destruct (Hentry text (issues_of (snd entry) text)) as [Hne Hsame].
    rewrite !(suggestions_of_unfold text entry).
    destruct (issues_of (snd entry) text) as [|issue others] eqn:E;
      cbn [Lst.nonempty]; cbv iota.
    + split.
      * cbn [app]; rewrite IHnil; split; intros Hall.
        -- apply Forall_cons; [|exact Hall].
           unfold result_of; cbn [snd passed]; rewrite E; reflexivity.
        -- inversion Hall; assumption.
      * cbn [app]; lia.
    + split.
      * split; intros Hall.
        -- apply app_eq_nil in Hall as [Hout _]; contradiction.
        -- inversion Hall as [|? ? Hp _]; subst.
           unfold result_of in Hp; cbn [snd passed] in Hp; rewrite E in Hp.
           discriminate.
      * rewrite length_app, Hsame; fold (advice_size entry); lia.
Qed.

(** X2.  The report of [analyze_text] has no suggestion exactly when
    every rule passed, and it never has more than 40 suggestions. *)
Theorem analyze_text_no_suggestion_iff_all_passed (text : string) :
  exists report,
    analyze_text text = Ok report
    /\ (suggestions report = []
        <-> Forall (fun item => passed (snd item) = true) (analysis report))
    /\ List.length (suggestions report) <= 40.
Proof.
  eexists; split; [apply analyze_text_eq|].
  cbn [suggestions analysis].
  destruct (suggestions_of_nil text rules suggesters_fixed) as [Hnil Hlen].
  split; [exact Hnil|].
  etransitivity; [exact Hlen|].
  apply Nat.eq_le_incl; reflexivity.
Qed.

(** ** The repairs of [generate_improved_text] *)

Lemma improve_loop_returns items text : returns (improve_loop items text).
Proof.
  revert text; induction items as [|[rule_name rule_analysis] items IH];
    intros text; cbn [improve_loop].
  - apply returns_Ok.
  - destruct (negb _ && _); [|apply IH].
    destruct (String.eqb rule_name "bottom_line_first").
    + destruct (apply_bottom_line_first_returns text) as [t ->]; apply IH.
    + destruct (String.eqb rule_name "clear_recommendations"); [|apply IH].
      destruct (apply_clear_recommendations_returns text) as [t ->]; apply IH.
Qed.

(** X3.  [generate_improved_text] returns a text on every report,
    whatever results and texts the report holds: the [pop] of the
    bottom-line repair is always in range. *)
Theorem generate_improved_text_total (report : Report) :
  returns (generate_improved_text report).
Proof. apply improve_loop_returns. Qed.

(** The rule of that name is recorded as failed in the report. *)
Definition failed (report : Report) (rule_name : string) : bool :=
  match dict_get (analysis report) rule_name with
  | Some rule_result => negb (passed rule_result) && Lst.nonempty (issues rule_result)
  | None => false
  end.

Lemma improve_loop_step rule_name rule_analysis items text :
  improve_loop ((rule_name, rule_analysis) :: items) text
  = (text' <- (if negb (passed rule_analysis) && Lst.nonempty (issues rule_analysis)
               then if String.eqb rule_name "bottom_line_first"
                    then _apply_bottom_line_first text
                    else if String.eqb rule_name "clear_recommendations"
                         then _apply_clear_recommendations text
                         else Ok text
               else Ok text) ;;
     improve_loop items text').
Proof.
  cbn [improve_loop].
  destruct (negb _ && _); [|reflexivity].
  destruct (String.eqb rule_name "bottom_line_first"); [reflexivity|].
  destruct (String.eqb rule_name "clear_recommendations"); reflexivity.
Qed.

Definition unrepaired (item : string * RuleResult) : Prop :=
  String.eqb (fst item) "bottom_line_first" = false
  /\ String.eqb (fst item) "clear_recommendations" = false.

Lemma improve_loop_unrepaired items text :
  Forall unrepaired items -> improve_loop items text = Ok text.
Proof.
  induction 1 as [|[rule_name rule_analysis] items [H1 H2] _ IH].
  - reflexivity.
  - rewrite improve_loop_other by assumption; exact IH.
Qed.

Lemma improve_loop_bottom_last rule_analysis items text :
  Forall unrepaired items ->
  improve_loop (("bottom_line_first", rule_analysis) :: items) text
  = if negb (passed rule_analysis) && Lst.nonempty (issues rule_analysis)
    then _apply_bottom_line_first text
    else Ok text.
Proof.
  intros Hrest; rewrite improve_loop_step.
  change (String.eqb "bottom_line_first" "bottom_line_first") with true; cbv iota.
  destruct (negb _ && _); cbn [bind].
  - destruct (apply_bottom_line_first_returns text) as [t ->]; cbn [bind].
    apply improve_loop_unrepaired, Hrest.
  - apply improve_loop_unrepaired, Hrest.
Qed.

(** X4.  On the report of [analyze_text], [generate_improved_text]
    applies the clear-recommendations repair first, when that rule
    failed, and then the bottom-line repair to the outcome, when that
    rule failed; no other rule changes the text. *)
Theorem generate_improved_text_order (text : string) :
  exists report,
    analyze_text text = Ok report
    /\ generate_improved_text report
       = (text1 <- (if failed report "clear_recommendations"
                    then _apply_clear_recommendations text
                    else Ok text) ;;
          if failed report "bottom_line_first"
          then _apply_bottom_line_first text1
          else Ok text1).
Proof.
  eexists; split; [apply analyze_text_eq|].
  unfold generate_improved_text, failed; cbn [analysis original_text].
  unfold rules, result_of; cbn [map fst snd description dict_get].
  change (String.eqb "super_specific_how" "clear_recommendations") with false.
  change (String.eqb "cut_backstory" "clear_recommendations") with false.
  change (String.eqb "clear_recommendations" "clear_recommendations") with true.
  change (String.eqb "super_specific_how" "bottom_line_first") with false.
  change (String.eqb "cut_backstory" "bottom_line_first") with false.
  change (String.eqb "clear_recommendations" "bottom_line_first") with false.
  change (String.eqb "bottom_line_first" "bottom_line_first") with true.
  cbv iota.
  rewrite 2 improve_loop_other by reflexivity.
  rewrite improve_loop_step.
  change (String.eqb "clear_recommendations" "bottom_line_first") with false.
  change (String.eqb "clear_recommendations" "clear_recommendations") with true.
  cbv iota.
  assert (Hrest : forall t rule_analysis items,
            Forall unrepaired items ->
            improve_loop (("bottom_line_first", rule_analysis) :: items) t
            = if negb (passed rule_analysis) && Lst.nonempty (issues rule_analysis)
              then _apply_bottom_line_first t
              else Ok t)
    by (intros; apply improve_loop_bottom_last; assumption).
  destruct (negb _ && _).
  - destruct (apply_clear_recommendations_returns text) as [t ->]; cbn [bind].
    apply Hrest; repeat (apply Forall_cons; [split; reflexivity|]); apply Forall_nil.
  - cbn [bind].
    apply Hrest; repeat (apply Forall_cons; [split; reflexivity|]); apply Forall_nil.
Qed.

(** ** What the bottom-line repair does to the sentences *)

Lemma around_index {A : Type} (l1 : list A) (a : A) (l2 : list A) :
  nth_error (l1 ++ a :: l2) (List.length l1) = Some a
  /\ firstn (List.length l1) (l1 ++ a :: l2) = l1
  /\ skipn (S (List.length l1)) (l1 ++ a :: l2) = l2.
Proof.
  induction l1 as [|x l1 (Hn & Hf & Hs)]; cbn [List.length app].
  - repeat split.
  - repeat split; [exact Hn | cbn [firstn]; f_equal; exact Hf | exact Hs].
Qed.

Lemma pop_at {A : Type} (l1 : list A) (a : A) (l2 : list A) :
  Lst.pop (l1 ++ a :: l2) (List.length l1) = Ok (a, l1 ++ l2).
Proof.
  unfold Lst.pop.
  destruct (around_index l1 a l2) as (-> & -> & ->); reflexivity.
Qed.

(** The scan from index [length before] on: the sentences of [mid]
    hold no conclusion, [c] holds one and lies beyond index 1. *)
Lemma move_conclusion_first before mid c rest :
  1 < List.length before ->
  Forall (fun s => any_search IGNORECASE conclusion_patterns s = false) mid ->
  any_search IGNORECASE conclusion_patterns c = true ->
  move_conclusion (before ++ mid ++ c :: rest) (List.length before) (mid ++ c :: rest)
  = Ok (Lst.insert (before ++ mid ++ rest) 1 c).
Proof.
  intros Hlen Hmid Hc; revert before Hlen.
  induction Hmid as [|m mid Hm _ IH]; intros before Hlen; cbn [app move_conclusion].
  - rewrite Hc.
    replace (1 <? List.length before)%nat with true
      by (symmetry; apply Nat.ltb_lt; exact Hlen).
    rewrite pop_at; reflexivity.
  - rewrite Hm.
    specialize (IH (before ++ [m])).
    rewrite length_app, <- !app_assoc in IH; cbn [List.length app] in IH.
    rewrite Nat.add_1_r in IH; apply IH; lia.
Qed.

Lemma move_conclusion_none sentences i todo :
  Forall (fun s => any_search IGNORECASE conclusion_patterns s = false) (skipn (2 - i) todo) ->
  move_conclusion sentences i todo = Ok sentences.
Proof.
  revert i; induction todo as [|s todo IH]; intros i Hnone; cbn [move_conclusion].
  - reflexivity.
  - destruct i as [|[|i]]; cbn [Nat.sub skipn] in Hnone.
    + change (1 <? 0)%nat with false.
      destruct (any_search _ _ s); apply IH; exact Hnone.
    + change (1 <? 1)%nat with false.
      destruct (any_search _ _ s); apply IH; exact Hnone.
    + inversion Hnone as [|? ? Hs Hrest]; subst.
      rewrite Hs; apply IH; exact Hrest.
Qed.

(** X5.  When the first sentence from the third on that holds a
    conclusion marker is [c], the bottom-line repair moves [c] right
    after the first sentence and keeps the other sentences in their
    order, whatever the first two sentences hold. *)
Theorem apply_bottom_line_first_moves (text a b c : string) (mid rest : list string) :
  stripped_sentences text = a :: b :: mid ++ c :: rest ->
  Forall (fun s => any_search IGNORECASE conclusion_patterns s = false) mid ->
  any_search IGNORECASE conclusion_patterns c = true ->
  _apply_bottom_line_first text
  = Ok (Str.join ". " (a :: c :: b :: mid ++ rest)
        +++ (if Str.endswith_dot text then "." else "")).
Proof.
  intros Hs Hmid Hc; unfold _apply_bottom_line_first; rewrite Hs.
  replace (2 <? List.length (a :: b :: mid ++ c :: rest))%nat with true
    by (symmetry; apply Nat.ltb_lt; cbn [List.length]; rewrite length_app;
        cbn [List.length]; lia).
  cbn [move_conclusion].
  change (1 <? 0)%nat with false; change (1 <? 1)%nat with false.
  assert (Hgo : move_conclusion (a :: b :: mid ++ c :: rest) 2 (mid ++ c :: rest)
                = Ok (a :: c :: b :: mid ++ rest))
    by (apply (move_conclusion_first [a; b] mid c rest); auto).
  destruct (any_search _ _ a), (any_search _ _ b); rewrite Hgo; reflexivity.
Qed.

Lemma apply_bottom_line_first_moves_witness :
  _apply_bottom_line_first "We met. It rained. We talked. I think we won. I believe so."
  = Ok "We met. I think we won. It rained. We talked. I believe so.".
Proof.
  rewrite (apply_bottom_line_first_moves
             "We met. It rained. We talked. I think we won. I believe so."
             "We met" "It rained" "I think we won" ["We talked"] ["I believe so"]).
  - vm_compute; reflexivity.
  - vm_compute; reflexivity.
  - apply Forall_cons; [vm_compute; reflexivity | apply Forall_nil].
  - vm_compute; reflexivity.
Defined.

(** X6.  When no sentence from the third on holds a conclusion marker,
    the bottom-line repair moves nothing, even if the first or the
    second sentence holds one: it returns the stripped non-blank
    sentences in their order. *)
Theorem apply_bottom_line_first_keeps (text : string) :
  Forall (fun s => any_search IGNORECASE conclusion_patterns s = false)
         (skipn 2 (stripped_sentences text)) ->
  _apply_bottom_line_first text
  = Ok (Str.join ". " (stripped_sentences text)
        +++ (if Str.endswith_dot text then "." else "")).
Proof.
  intros Hnone; unfold _apply_bottom_line_first.
  destruct (2 <? _)%nat; [|reflexivity].
  rewrite move_conclusion_none by exact Hnone; reflexivity.
Qed.

Lemma no_conclusion_all (l : list string) :
  forallb (fun s => negb (any_search IGNORECASE conclusion_patterns s)) l = true ->
  Forall (fun s => any_search IGNORECASE conclusion_patterns s = false) l.
Proof.
  intros H; apply Forall_forall; intros s Hin.
  rewrite forallb_forall in H; apply negb_true_iff, H, Hin.
Qed.

Lemma apply_bottom_line_first_keeps_witness :
  _apply_bottom_line_first "We met. I think we won. It rained. We talked."
  = Ok "We met. I think we won. It rained. We talked.".
Proof.
  rewrite (apply_bottom_line_first_keeps
             "We met. I think we won. It rained. We talked.").
  - vm_compute; reflexivity.
  - apply no_conclusion_all; vm_compute; reflexivity.
Defined.

Lemma move_conclusion_permutes sentences i todo :
  i + List.length todo = List.length sentences ->
  exists moved,
    move_conclusion sentences i todo = Ok moved
    /\ Permutation moved sentences
    /\ hd_error moved = hd_error sentences.
Proof.
  revert i; induction todo as [|s todo IH]; intros i Hlen; cbn [move_conclusion].
  - exists sentences; auto.
  - cbn [List.length] in Hlen.
    assert (Hnext : exists moved,
               move_conclusion sentences (S i) todo = Ok moved
               /\ Permutation moved sentences
               /\ hd_error moved = hd_error sentences) by (apply IH; lia).
    destruct (any_search _ _ s); [|exact Hnext].
    destruct (1 <? i)%nat eqn:Hi; [|exact Hnext].
    apply Nat.ltb_lt in Hi.
    destruct (nth_error sentences i) as [c|] eqn:Hc;
      [|apply nth_error_None in Hc; lia].
    apply nth_error_split in Hc as (l1 & l2 & -> & <-).
    rewrite pop_at; cbn [bind].
    destruct l1 as [|x l1]; [cbn [List.length] in Hi; lia|].
    exists (x :: c :: l1 ++ l2); repeat split.
    cbn [app]; apply perm_skip, Permutation_middle.
Qed.

(** X7.  The bottom-line repair only reorders: the text it returns is
    the sentences of a permutation of the stripped non-blank sentences
    of the text, joined by a period and a space, and the first sentence
    stays first. *)
Theorem apply_bottom_line_first_permutes (text : string) :
  exists sentences,
    _apply_bottom_line_first text
    = Ok (Str.join ". " sentences +++ (if Str.endswith_dot text then "." else ""))
    /\ Permutation sentences (stripped_sentences text)
    /\ hd_error sentences = hd_error (stripped_sentences text).
Proof.
  unfold _apply_bottom_line_first.
  destruct (2 <? _)%nat.
  - destruct (move_conclusion_permutes (stripped_sentences text) 0
                (stripped_sentences text) eq_refl) as (moved & -> & Hperm & Hhd).
    exists moved; auto.
  - exists (stripped_sentences text); auto.
Qed.

(** ** Sentences are counted by periods *)

(** The number of occurrences of a character. *)
Fixpoint count_char (a : ascii) (s : string) : nat :=
  match s with
  | EmptyString => 0
  | String c s' => (if Ascii.eqb c a then 1 else 0) + count_char a s'
  end.

Lemma push_length c (l : list string) :
  l <> [] -> List.length (Str.push c l) = List.length l.
Proof. destruct l; [congruence | reflexivity]. Qed.

Lemma split_on_length (sep : ascii) (s : string) :
  List.length (Str.split_on sep s) = S (count_char sep s).
Proof.
  induction s as [|c s IH]; cbn [Str.split_on count_char].
  - reflexivity.
  - destruct (Ascii.eqb c sep); cbn [List.length Nat.add].
    + rewrite IH; reflexivity.
    + rewrite push_length, IH; [reflexivity|].
      intros E; rewrite E in IH; discriminate.
Qed.

(** X8.  A text with fewer than two periods passes [bottom_line_first]
    whatever it says: the checker looks for a conclusion only from
    three period-delimited segments on. *)
Theorem check_bottom_line_first_few_periods (text : string) :
  count_char "." text < 2 ->
  _check_bottom_line_first text = Ok [].
Proof.
  intros Hfew; unfold _check_bottom_line_first.
  rewrite split_on_length.
  replace (S (count_char "." text) <? 3)%nat with true
    by (symmetry; apply Nat.ltb_lt; lia).
  reflexivity.
Qed.

Lemma check_bottom_line_first_few_periods_witness :
  _check_bottom_line_first "The weather was bad. Nobody came" = Ok [].
Proof.
  apply (check_bottom_line_first_few_periods "The weather was bad. Nobody came").
  vm_compute; lia.
Defined.

Lemma flat_map_at_most_one {A B : Type} (f : A -> list B) (l : list A) :
  (forall a, List.length (f a) <= 1) ->
  List.length (flat_map f l) <= List.length l.
Proof.
  intros Hf; induction l as [|a l IH]; cbn [flat_map List.length].
  - lia.
  - rewrite length_app; specialize (Hf a); lia.
Qed.

(** X9.  [active_voice] reports at most one issue per period-delimited
    segment, so at most one more than the text has periods; and
    [cut_backstory], which reads the first third of the segments when
    they are more than three, reports at most three issues or a third
    of the number of segments, whichever is larger. *)
Theorem issues_per_segment (text : string) :
  exists backstory passive,
    _check_backstory text = Ok backstory
    /\ _check_active_voice text = Ok passive
    /\ List.length passive <= S (count_char "." text)
    /\ List.length backstory <= Nat.max 3 (S (count_char "." text) / 3).
Proof.
  unfold _check_backstory, _check_active_voice.
  do 2 eexists; split; [reflexivity|]; split; [reflexivity|].
  rewrite <- (split_on_length "." text).
  set (segments := Str.split_on "." text).
  split.
  - apply flat_map_at_most_one; intros s; destruct (any_search _ _ _); simpl; lia.
  - etransitivity;
      [apply flat_map_at_most_one; intros s; destruct (any_search _ _ s); simpl; lia|].
    destruct (3 <? List.length segments)%nat eqn:E.
    + rewrite length_firstn; lia.
    + apply Nat.ltb_ge in E; lia.
Qed.

(** ** The length gates *)

Lemma vague_loop_issues patterns text issues :
  exists found,
    vague_loop patterns text issues = Ok (issues ++ found)
    /\ ~ In lacks_specifics found.
Proof.
  revert issues; induction patterns as [|pattern patterns IH]; intros issues;
    cbn [vague_loop].
  - exists []; rewrite app_nil_r; auto.
  - destruct (findall IGNORECASE pattern text) as [|m0 matches];
      cbn [Lst.nonempty Lst.item nth_error bind].
    + apply IH.
    + destruct (IH (issues ++ ["Potential vague advice without specific implementation: '"
                               +++ format m0 +++ "'"])) as (found & -> & Hnot).
      eexists; rewrite <- app_assoc; split; [reflexivity|].
      cbn [app In]; intros [E|Hin]; [discriminate E | exact (Hnot Hin)].
Qed.

(** X10.  On a text of at most 100 words [super_specific_how] never
    reports that the text lacks specific implementation details,
    whatever vague phrasing it reports. *)
Theorem check_super_specific_how_short (text : string) :
  word_count text <= 100 ->
  exists issues,
    _check_super_specific_how text = Ok issues /\ ~ In lacks_specifics issues.
Proof.
  intros Hshort; unfold _check_super_specific_how.
  destruct (vague_loop_issues vague_patterns text []) as (found & -> & Hnot).
  cbn [bind app].
  replace (100 <? word_count text)%nat with false
    by (symmetry; apply Nat.ltb_ge; exact Hshort).
  rewrite andb_false_r; exists found; auto.
Qed.

Lemma check_super_specific_how_short_witness :
  exists issues,
    _check_super_specific_how "You should be careful with the oven." = Ok issues
    /\ ~ In lacks_specifics issues.
Proof.
  apply (check_super_specific_how_short "You should be careful with the oven.").
  vm_compute; lia.
Defined.

(** X11.  [adequate_context] passes on every text of at most 300
    words: the test at 200 words alone never reports. *)
Theorem check_adequate_context_short (text : string) :
  word_count text <= 300 ->
  _check_adequate_context text = Ok [].
Proof.
  intros Hshort; unfold _check_adequate_context.
  replace (300 <? word_count text)%nat with false
    by (symmetry; apply Nat.ltb_ge; exact Hshort).
  rewrite andb_false_r.
  destruct (200 <? word_count text)%nat; reflexivity.
Qed.

Lemma check_adequate_context_short_witness :
  _check_adequate_context "We ship the release on Friday." = Ok [].
Proof.
  apply (check_adequate_context_short "We ship the release on Friday.").
  vm_compute; lia.
Defined.

Definition lacks_structure : string :=
  "Long text lacks clear logical structure - consider adding transitions or organizing in numbered points".

Lemma paragraph_loop_issues paragraphs i issues :
  exists found,
    paragraph_loop paragraphs i issues = Ok (issues ++ found)
    /\ ~ In lacks_structure found
    /\ List.length found <= 1.
Proof.
  revert i; induction paragraphs as [|paragraph paragraphs IH]; intros i;
    cbn [paragraph_loop].
  - exists []; rewrite app_nil_r; auto.
  - destruct (stripped_sentences paragraph) as [|first_sentence others];
      [apply IH|].
    destruct (1 <? _)%nat; [|apply IH].
    cbn [Lst.item nth_error bind].
    destruct (negb _ && _); [|apply IH].
    eexists; split; [reflexivity|]; split; [|simpl; lia].
    cbn [In]; intros [E|[]].
    destruct (Str.of_nat (i + 1)); discriminate E.
Qed.

(** X12.  On a text of at most 150 words [logical_flow] never reports
    that the text lacks logical structure; all it can report is one
    paragraph without topic sentence. *)
Theorem check_logical_flow_short (text : string) :
  word_count text <= 150 ->
  exists issues,
    _check_logical_flow text = Ok issues
    /\ ~ In lacks_structure issues
    /\ List.length issues <= 1.
Proof.
  intros Hshort; unfold _check_logical_flow.
  replace (150 <? word_count text)%nat with false
    by (symmetry; apply Nat.ltb_ge; exact Hshort).
  match goal with
  | |- context [paragraph_loop ?ps 0 []] =>
      destruct (paragraph_loop_issues ps 0 []) as (found & -> & Hnot & Hlen)
  end.
  exists found; auto.
Qed.

Lemma check_logical_flow_short_witness :
  exists issues,
    _check_logical_flow "We ship the release on Friday. Then we rest." = Ok issues
    /\ ~ In lacks_structure issues
    /\ List.length issues <= 1.
Proof.
  apply (check_logical_flow_short "We ship the release on Friday. Then we rest.").
  vm_compute; lia.
Defined.

(** ** Phrases that two rules report *)

(** The wordy phrases that [conciseness] and [clarity_simplicity] both
    list, with the replacement both advise. *)
Definition shared_phrases : list (string * string) :=
  [ ("in order to", "to"); ("in the event that", "if"); ("for the purpose of", "to") ].

Lemma in_flagged (table : list (regex * string)) (message : string -> string)
  (text p replacement : string) :
  In (phrase p, replacement) table ->
  search IGNORECASE (phrase p) text = true ->
  In (message replacement)
     (flat_map (fun '(pattern, replacement) =>
                  if search IGNORECASE pattern text then [message replacement] else [])
               table).
Proof.
  intros Hin Hfound; apply in_flat_map.
  exists (phrase p, replacement); split; [exact Hin|].
  cbv beta iota; rewrite Hfound; left; reflexivity.
Qed.

(** X13.  A text in which "in order to", "in the event that" or "for
    the purpose of" occurs as a phrase fails two rules at once:
    [conciseness] reports a redundant phrase and [clarity_simplicity]
    a formal phrase, each advising the same replacement. *)
Theorem shared_phrase_reported_twice (text p replacement : string) :
  In (p, replacement) shared_phrases ->
  search IGNORECASE (phrase p) text = true ->
  exists concise clear,
    _check_conciseness text = Ok concise
    /\ _check_clarity_simplicity text = Ok clear
    /\ In ("Redundant phrase found - consider using '" +++ replacement +++ "' instead")
          concise
    /\ In ("Formal phrase could be simplified: consider using '" +++ replacement +++ "'")
          clear.
Proof.
  intros Hshared Hfound.
  assert (Hr : In (phrase p, replacement) redundancies)
    by (unfold shared_phrases in Hshared; cbn [In] in Hshared;
        destruct Hshared as [E|[E|[E|[]]]]; injection E as <- <-;
        unfold redundancies; cbn [In]; tauto).
  assert (Hf : In (phrase p, replacement) formal_phrases)
    by (unfold shared_phrases in Hshared; cbn [In] in Hshared;
        destruct Hshared as [E|[E|[E|[]]]]; injection E as <- <-;
        unfold formal_phrases; cbn [In]; tauto).
  unfold _check_conciseness, _check_clarity_simplicity.
  destruct (jargon_loop_returns jargon_patterns text []) as [jargon ->]; cbn [bind].
  pose proof (in_flagged redundancies
                (fun r => "Redundant phrase found - consider using '" +++ r +++ "' instead")
                text p replacement Hr Hfound) as H1.
  pose proof (in_flagged formal_phrases
                (fun r => "Formal phrase could be simplified: consider using '" +++ r +++ "'")
                text p replacement Hf Hfound) as H2.
  cbv beta in H1, H2.
  destruct (exceeds_percent _ _ _);
    do 2 eexists; (split; [reflexivity|]); (split; [reflexivity|]);
    (split; [|apply in_or_app; right; exact H2]).
  - apply in_or_app; left; exact H1.
  - exact H1.
Qed.

Lemma shared_phrase_reported_twice_witness :
  exists concise clear,
    _check_conciseness "We met in order to plan the launch." = Ok concise
    /\ _check_clarity_simplicity "We met in order to plan the launch." = Ok clear
    /\ In "Redundant phrase found - consider using 'to' instead" concise
    /\ In "Formal phrase could be simplified: consider using 'to'" clear.
Proof.
  apply (shared_phrase_reported_twice
           "We met in order to plan the launch." "in order to" "to").
  - left; reflexivity.
  - vm_compute; reflexivity.
Defined.

(** ** Blank text *)

(** Only whitespace, or nothing at all. *)
Fixpoint blank (s : string) : bool :=
  match s with
  | EmptyString => true
  | String c s' => Chr.is_space c && blank s'
  end.

(** Every match of the pattern reads, or stands next to, a character
    that is not whitespace. *)
Fixpoint demands (r : regex) : bool :=
  match r with
  | Lit s => negb (blank s)
  | Many _ => false
  | Many1 k => match k with WordChar | Digit => true | AnyChar | Space => false end
  | Opt _ => false
  | Seq a b => demands a || demands b
  | Alt a b => demands a && demands b
  | Grp r1 => demands r1
  | WordB => true
  | Bol => false
  | Ahead r1 => demands r1
  | NotAhead _ => false
  end.

Ltac each_char c :=
  destruct c as [[] [] [] [] [] [] [] []]; vm_compute; try discriminate; auto.

Lemma space_is_plain (c : ascii) :
  Chr.is_space c = true ->
  Chr.is_word c = false /\ Chr.is_digit c = false /\ Ascii.eqb c "." = false.
Proof. each_char c. Qed.

Lemma lower_keeps_space (c : ascii) :
  Chr.is_space (Chr.lower c) = Chr.is_space c.
Proof. each_char c. Qed.

Lemma lower_of_space (c : ascii) : Chr.is_space c = true -> Chr.lower c = c.
Proof. each_char c. Qed.

Lemma chr_eq_space flags (a c : ascii) :
  chr_eq flags a c = true -> Chr.is_space c = true -> Chr.is_space a = true.
Proof.
  unfold chr_eq; destruct flags; intros E Hc.
  - apply Ascii.eqb_eq in E.
    rewrite <- lower_keeps_space, E, lower_keeps_space; exact Hc.
  - apply Ascii.eqb_eq in E; subst; exact Hc.
Qed.

(** A place in a blank subject. *)
Definition quiet_at (p : option ascii) (s : string) : Prop :=
  word_before p = false /\ blank s = true.

Definition quiet (st : cursor) : Prop := quiet_at (prev st) (rest st).

Lemma quiet_next p c s : quiet_at p (String c s) -> quiet_at (Some c) s.
Proof.
  intros [_ H]; cbn [blank] in H; apply andb_true_iff in H as [Hc Hs].
  split; [apply space_is_plain, Hc | exact Hs].
Qed.

Lemma eat_quiet flags lit p s ps :
  quiet_at p s -> eat flags lit p s = Some ps -> quiet_at (fst ps) (snd ps).
Proof.
  revert p s; induction lit as [|a lit IH]; intros p s Hq; cbn [eat].
  - intros E; injection E as <-; exact Hq.
  - destruct s as [|c s]; [discriminate|].
    destruct (chr_eq flags a c); [|discriminate].
    apply IH, (quiet_next p), Hq.
Qed.

Lemma eat_demand flags lit p s :
  quiet_at p s -> blank lit = false -> eat flags lit p s = None.
Proof.
  revert p s; induction lit as [|a lit IH]; intros p s Hq Hlit; cbn [eat].
  - discriminate.
  - destruct s as [|c s]; [reflexivity|].
    destruct (chr_eq flags a c) eqn:E; [|reflexivity].
    apply IH; [apply (quiet_next p), Hq|].
    destruct Hq as [_ Hs]; cbn [blank] in Hs, Hlit.
    apply andb_true_iff in Hs as [Hc _].
    rewrite (chr_eq_space flags a c E Hc) in Hlit; exact Hlit.
Qed.

Lemma runs_quiet k p s :
  quiet_at p s -> Forall (fun ps => quiet_at (fst ps) (snd ps)) (runs k p s).
Proof.
  revert p; induction s as [|c s IH]; intros p Hq; cbn [runs].
  - apply Forall_cons; [exact Hq | apply Forall_nil].
  - destruct (in_cset k c).
    + apply Forall_app; split; [apply IH, (quiet_next p), Hq|].
      apply Forall_cons; [exact Hq | apply Forall_nil].
    + apply Forall_cons; [exact Hq | apply Forall_nil].
Qed.

Lemma flat_map_nil {A B : Type} (f : A -> list B) (l : list A) :
  Forall (fun a => f a = []) l -> flat_map f l = [].
Proof.
  induction 1 as [|a l Ha _ IH]; cbn [flat_map]; [reflexivity|].
  rewrite Ha, IH; reflexivity.
Qed.

Lemma ends_quiet flags r st :
  quiet st ->
  Forall quiet (ends flags r st) /\ (demands r = true -> ends flags r st = []).
Proof.
  revert st; induction r as [s|k|k|r1 IH1|a IHa b IHb|a IHa b IHb|r1 IH1| | |r1 IH1|r1 IH1];
    intros st Hq; cbn [ends demands].
  - destruct (eat flags s (prev st) (rest st)) as [ps|] eqn:E.
    + split.
      * apply Forall_cons; [exact (eat_quiet _ _ _ _ _ Hq E) | apply Forall_nil].
      * intros Hd; apply negb_true_iff in Hd.
        rewrite (eat_demand flags s _ _ Hq Hd) in E; discriminate.
    + split; [apply Forall_nil | reflexivity].
  - split; [|discriminate].
    apply Forall_map; exact (runs_quiet k _ _ Hq).
  - destruct (rest st) as [|c s] eqn:E.
    + split; [apply Forall_nil | reflexivity].
    + assert (Hq' : quiet_at (prev st) (String c s)) by (rewrite <- E; exact Hq).
      assert (Hc : Chr.is_space c = true)
        by (destruct Hq' as [_ H]; cbn [blank] in H;
            apply andb_true_iff in H as [H _]; exact H).
      destruct (in_cset k c) eqn:Hin.
      * split.
        -- apply Forall_map; exact (runs_quiet k _ _ (quiet_next _ _ _ Hq')).
        -- destruct k; cbn [in_cset] in Hin; try discriminate; intros _;
             destruct (space_is_plain c Hc) as (Hw & Hd & _); congruence.
      * split; [apply Forall_nil | reflexivity].
  - destruct (IH1 st Hq) as [H _]; split; [|discriminate].
    apply Forall_app; split; [exact H|].
    apply Forall_cons; [exact Hq | apply Forall_nil].
  - destruct (IHa st Hq) as [Ha Hda]; split.
    + apply Forall_flat_map.
      revert Ha; apply Forall_impl; intros st' Hq'; apply IHb, Hq'.
    + intros Hd; apply orb_true_iff in Hd as [Hd|Hd].
      * rewrite (Hda Hd); reflexivity.
      * apply flat_map_nil.
        revert Ha; apply Forall_impl; intros st' Hq'; apply IHb; assumption.
  - destruct (IHa st Hq) as [Ha Hda], (IHb st Hq) as [Hb Hdb]; split.
    + apply Forall_app; split; assumption.
    + intros Hd; apply andb_true_iff in Hd as [H1 H2].
      rewrite (Hda H1), (Hdb H2); reflexivity.
  - destruct (IH1 st Hq) as [H Hd]; split.
    + apply Forall_map; revert H; apply Forall_impl; intros st' Hq'; exact Hq'.
    + intros Hd'; rewrite (Hd Hd'); reflexivity.
  - destruct Hq as [Hp Hs]; split; [|intros _].
    + destruct (at_boundary st); [|apply Forall_nil].
      apply Forall_cons; [split; assumption | apply Forall_nil].
    + unfold at_boundary; rewrite Hp.
      destruct (rest st) as [|c s]; [reflexivity|].
      cbn [blank] in Hs; apply andb_true_iff in Hs as [Hc _].
      cbn [word_after]; destruct (space_is_plain c Hc) as (-> & _); reflexivity.
  - split; [|discriminate].
    destruct (prev st); [apply Forall_nil|].
    apply Forall_cons; [exact Hq | apply Forall_nil].
  - destruct (IH1 st Hq) as [_ Hd]; split.
    + destruct (Lst.nonempty _); [|apply Forall_nil].
      apply Forall_cons; [exact Hq | apply Forall_nil].
    + intros Hd'; rewrite (Hd Hd'); reflexivity.
  - split; [|discriminate].
    destruct (Lst.nonempty _); [apply Forall_nil|].
    apply Forall_cons; [exact Hq | apply Forall_nil].
Qed.

Lemma matches_at_quiet flags r p s :
  quiet_at p s -> demands r = true -> matches_at flags r p s = false.
Proof.
  intros Hq Hd; unfold matches_at.
  destruct (ends_quiet flags r (Cursor p s []) Hq) as [_ H].
  rewrite (H Hd); reflexivity.
Qed.

Lemma search_from_quiet flags r p s :
  quiet_at p s -> demands r = true -> search_from flags r p s = false.
Proof.
  intros Hq Hd; revert p Hq; induction s as [|c s IH]; intros p Hq;
    cbn [search_from]; rewrite (matches_at_quiet flags r p _ Hq Hd).
  - reflexivity.
  - apply IH, (quiet_next p), Hq.
Qed.

Lemma blank_start s : blank s = true -> quiet_at None s.
Proof. intros H; split; [reflexivity | exact H]. Qed.

Lemma search_blank flags r s :
  blank s = true -> demands r = true -> search flags r s = false.
Proof. intros Hs Hd; apply search_from_quiet; auto using blank_start. Qed.

Lemma any_search_blank flags patterns s :
  blank s = true -> forallb demands patterns = true ->
  any_search flags patterns s = false.
Proof.
  intros Hs; unfold any_search.
  induction patterns as [|r patterns IH]; cbn [forallb existsb]; intros Hd.
  - reflexivity.
  - apply andb_true_iff in Hd as [H1 H2].
    rewrite (search_blank flags r s Hs H1), (IH H2); reflexivity.
Qed.

Lemma findall_from_quiet flags r p s :
  quiet_at p s -> demands r = true -> findall_from flags r p s 0 = [].
Proof.
  intros Hq Hd; revert p Hq; induction s as [|c s IH]; intros p Hq;
    cbn [findall_from];
    destruct (ends_quiet flags r (Cursor p _ []) Hq) as [_ H]; rewrite (H Hd).
  - reflexivity.
  - apply IH, (quiet_next p), Hq.
Qed.

Lemma findall_blank flags r s :
  blank s = true -> demands r = true -> findall flags r s = [].
Proof. intros Hs Hd; apply findall_from_quiet; auto using blank_start. Qed.

Lemma blank_has_no_dot s : blank s = true -> Str.has "." s = false.
Proof.
  induction s as [|c s IH]; cbn [blank]; intros H.
  - reflexivity.
  - apply andb_true_iff in H as [Hc Hs].
    rewrite has_String, (IH Hs), orb_false_r, Ascii.eqb_sym.
    apply space_is_plain, Hc.
Qed.

Lemma blank_split s : blank s = true -> Str.split s = [].
Proof.
  induction s as [|c s IH]; cbn [blank Str.split]; intros H.
  - reflexivity.
  - apply andb_true_iff in H as [-> Hs]; exact (IH Hs).
Qed.

Lemma blank_rstrip s : blank s = true -> Str.rstrip s = EmptyString.
Proof.
  induction s as [|c s IH]; cbn [blank Str.rstrip]; intros H.
  - reflexivity.
  - apply andb_true_iff in H as [-> Hs]; rewrite (IH Hs); reflexivity.
Qed.

Lemma blank_strip s : blank s = true -> Str.strip s = EmptyString.
Proof. intros H; unfold Str.strip; rewrite (blank_rstrip s H); reflexivity. Qed.

Lemma blank_push c l :
  Chr.is_space c = true -> Forall (fun s => blank s = true) l ->
  Forall (fun s => blank s = true) (Str.push c l).
Proof.
  intros Hc Hl; destruct Hl as [|s l Hs Hl]; cbn [Str.push].
  - apply Forall_cons; [cbn [blank]; rewrite Hc; reflexivity | apply Forall_nil].
  - apply Forall_cons; [cbn [blank]; rewrite Hc, Hs; reflexivity | exact Hl].
Qed.

Lemma split_blank_line_step c c' s :
  Str.split_blank_line (String c (String c' s))
  = if Ascii.eqb c Chr.newline && Ascii.eqb c' Chr.newline
    then EmptyString :: Str.split_blank_line s
    else Str.push c (Str.split_blank_line (String c' s)).
Proof. reflexivity. Qed.

Lemma blank_paragraphs_upto n s :
  String.length s <= n -> blank s = true ->
  Forall (fun p => blank p = true) (Str.split_blank_line s).
Proof.
  revert s; induction n as [|n IH]; intros s Hn Hs.
  - destruct s; [|cbn [String.length] in Hn; lia].
    apply Forall_cons; [reflexivity | apply Forall_nil].
  - destruct s as [|c [|c' s]]; [| |rewrite split_blank_line_step].
    + apply Forall_cons; [reflexivity | apply Forall_nil].
    + apply Forall_cons; [exact Hs | apply Forall_nil].
    + cbn [blank String.length] in Hs, Hn.
      apply andb_true_iff in Hs as [Hc Hs'].
      destruct (Ascii.eqb c Chr.newline && Ascii.eqb c' Chr.newline).
      * apply Forall_cons; [reflexivity|].
        apply andb_true_iff in Hs' as [_ Hs''].
        apply IH; [lia | exact Hs''].
      * apply blank_push; [exact Hc|].
        apply IH; [cbn [String.length]; lia | exact Hs'].
Qed.

Lemma blank_no_paragraph s :
  blank s = true ->
  map Str.strip
      (filter (fun p => Str.nonempty (Str.strip p)) (Str.split_blank_line s)) = [].
Proof.
  intros Hs.
  pose proof (blank_paragraphs_upto (String.length s) s (le_n _) Hs) as H.
  induction H as [|p l Hp _ IH]; cbn [filter].
  - reflexivity.
  - rewrite (blank_strip p Hp); exact IH.
Qed.

Lemma blank_no_sentence s : blank s = true -> stripped_sentences s = [].
Proof.
  intros Hs; unfold stripped_sentences.
  rewrite (split_on_absent "." s (blank_has_no_dot s Hs)); cbn [filter].
  rewrite (blank_strip s Hs); reflexivity.
Qed.

Lemma flagged_blank (table : list (regex * string)) (message : string -> string) s :
  blank s = true -> forallb demands (map fst table) = true ->
  flat_map (fun '(pattern, replacement) =>
              if search IGNORECASE pattern s then [message replacement] else [])
           table = [].
Proof.
  intros Hs; induction table as [|[pattern replacement] table IH];
    cbn [map fst forallb flat_map]; intros Hd.
  - reflexivity.
  - apply andb_true_iff in Hd as [H1 H2].
    rewrite (search_blank _ pattern s Hs H1), (IH H2); reflexivity.
Qed.

Lemma count_all_blank patterns s :
  blank s = true -> forallb demands patterns = true -> count_all patterns s = 0.
Proof.
  intros Hs; unfold count_all.
  induction patterns as [|r patterns IH]; cbn [forallb map]; intros Hd.
  - reflexivity.
  - apply andb_true_iff in Hd as [H1 H2].
    rewrite (findall_blank _ r s Hs H1).
    change (list_sum (?x :: ?l)) with (x + list_sum l).
    rewrite (IH H2); reflexivity.
Qed.

Lemma vague_loop_blank patterns s issues :
  blank s = true -> forallb demands patterns = true ->
  vague_loop patterns s issues = Ok issues.
Proof.
  intros Hs; induction patterns as [|r patterns IH]; cbn [forallb vague_loop];
    intros Hd; [reflexivity|].
  apply andb_true_iff in Hd as [H1 H2].
  rewrite (findall_blank _ r s Hs H1); exact (IH H2).
Qed.

Lemma jargon_loop_blank patterns s issues :
  blank s = true -> forallb demands patterns = true ->
  jargon_loop patterns s issues = Ok issues.
Proof.
  intros Hs; induction patterns as [|r patterns IH]; cbn [forallb jargon_loop];
    intros Hd; [reflexivity|].
  apply andb_true_iff in Hd as [H1 H2].
  rewrite (findall_blank _ r s Hs H1); exact (IH H2).
Qed.

Lemma word_count_blank s : blank s = true -> word_count s = 0.
Proof. intros Hs; unfold word_count; rewrite (blank_split s Hs); reflexivity. Qed.

(** On blank text every checker of the registry returns no issue. *)
Lemma checkers_blank s :
  blank s = true -> Forall (fun entry => check (snd entry) s = Ok []) rules.
Proof.
  intros Hs.
  pose proof (word_count_blank s Hs) as Hwc.
  pose proof (blank_no_sentence s Hs) as Hsent.
  pose proof (split_on_absent "." s (blank_has_no_dot s Hs)) as Hsplit.
  unfold rules; repeat (apply Forall_cons; [cbn [snd check]|]); [..|apply Forall_nil].
  - unfold _check_super_specific_how.
    rewrite vague_loop_blank by (first [exact Hs | reflexivity]); cbn [bind].
    rewrite Hwc, andb_false_r; reflexivity.
  - unfold _check_backstory; rewrite Hsplit; cbn [List.length Nat.ltb Nat.leb flat_map].
    rewrite any_search_blank by (first [exact Hs | reflexivity]); reflexivity.
  - unfold _check_clear_recommendations, unclear_patterns; cbn [flat_map].
    rewrite !search_blank by (first [exact Hs | reflexivity]); reflexivity.
  - unfold _check_bottom_line_first; rewrite Hsplit; reflexivity.
  - unfold _check_adequate_context; rewrite Hwc; reflexivity.
  - unfold _check_sentence_structure; rewrite Hsent; reflexivity.
  - unfold _check_active_voice; rewrite Hsplit; cbn [flat_map].
    rewrite (blank_strip s Hs); reflexivity.
  - unfold _check_logical_flow.
    rewrite Hwc, (blank_no_paragraph s Hs); reflexivity.
  - unfold _check_conciseness.
    rewrite (flagged_blank redundancies
               (fun r => "Redundant phrase found - consider using '" +++ r +++ "' instead")
               s Hs eq_refl).
    rewrite count_all_blank by (first [exact Hs | reflexivity]).
    rewrite Hwc; reflexivity.
  - unfold _check_clarity_simplicity.
    rewrite jargon_loop_blank by (first [exact Hs | reflexivity]); cbn [bind].
    rewrite Hsent; cbn [existsb app].
    rewrite (flagged_blank formal_phrases
               (fun r => "Formal phrase could be simplified: consider using '" +++ r +++ "'")
               s Hs eq_refl).
    reflexivity.
  - unfold _check_eliminate_clutter.
    rewrite count_all_blank by (first [exact Hs | reflexivity]).
    rewrite Hwc.
    rewrite !any_search_blank by (first [exact Hs | reflexivity]); reflexivity.
Qed.

(** X14.  On a blank text (only whitespace, or empty) every rule
    passes with no issue, the report holds no suggestion, and
    [generate_improved_text] returns the text as it is. *)
Theorem analyze_text_blank (text : string) :
  blank text = true ->
  exists report,
    analyze_text text = Ok report
    /\ Forall (fun item => passed (snd item) = true /\ issues (snd item) = [])
              (analysis report)
    /\ suggestions report = []
    /\ generate_improved_text report = Ok text.
Proof.
  intros Hs.
  pose proof (checkers_blank text Hs) as Hall.
  assert (Hres : Forall (fun item => passed (snd item) = true /\ issues (snd item) = [])
                        (map (result_of text) rules)).
  { apply Forall_map; revert Hall; apply Forall_impl; intros entry Hentry.
    unfold result_of, issues_of; cbn [snd passed issues]; rewrite Hentry.
    split; reflexivity. }
  eexists; split; [apply analyze_text_eq|].
  cbn [analysis suggestions]; split; [exact Hres|]; split.
  - apply flat_map_nil; revert Hall; apply Forall_impl; intros entry Hentry.
    unfold suggestions_of, issues_of; rewrite Hentry; reflexivity.
  - unfold generate_improved_text; cbn [analysis original_text].
    apply improve_loop_all_passed.
    revert Hres; apply Forall_impl; intros item [Hp _]; exact Hp.
Qed.

Lemma analyze_text_blank_witness :
  exists report,
    analyze_text "   " = Ok report
    /\ Forall (fun item => passed (snd item) = true /\ issues (snd item) = [])
              (analysis report)
    /\ suggestions report = []
    /\ generate_improved_text report = Ok "   ".
Proof.
  apply (analyze_text_blank "   "); reflexivity.
Defined.

(** ** The prefix of the clear-recommendations repair *)

(** The pattern has no [^]. *)
Fixpoint bol_free (r : regex) : bool :=
  match r with
  | Bol => false
  | Lit _ | Many _ | Many1 _ | WordB => true
  | Opt r1 | Grp r1 | Ahead r1 | NotAhead r1 => bol_free r1
  | Seq a b | Alt a b => bol_free a && bol_free b
  end.

(** Two places with the same text ahead, and behind both a word
    character or behind neither. *)
Definition alike_at (ps1 ps2 : option ascii * string) : Prop :=
  snd ps1 = snd ps2 /\ word_before (fst ps1) = word_before (fst ps2).

Definition alike (st1 st2 : cursor) : Prop :=
  alike_at (prev st1, rest st1) (prev st2, rest st2) /\ caps st1 = caps st2.

Lemma Forall2_same {A : Type} (R : A -> A -> Prop) (l : list A) :
  (forall a, R a a) -> Forall2 R l l.
Proof. intros HR; induction l; constructor; auto. Qed.

Lemma Forall2_map_both {A B C : Type} (R : B -> C -> Prop) (f : A -> B) (g : A -> C)
  (l : list A) :
  (forall a, R (f a) (g a)) -> Forall2 R (map f l) (map g l).
Proof. intros H; induction l; cbn [map]; constructor; auto. Qed.

Lemma Forall2_map_pair {A A' B B' : Type} (R : A -> A' -> Prop) (R' : B -> B' -> Prop)
  (f : A -> B) (g : A' -> B') l l' :
  (forall a a', R a a' -> R' (f a) (g a')) ->
  Forall2 R l l' -> Forall2 R' (map f l) (map g l').
Proof. intros H; induction 1; cbn [map]; constructor; auto. Qed.

Lemma Forall2_flat_map_pair {A A' B B' : Type} (R : A -> A' -> Prop)
  (R' : B -> B' -> Prop) (f : A -> list B) (g : A' -> list B') l l' :
  (forall a a', R a a' -> Forall2 R' (f a) (g a')) ->
  Forall2 R l l' -> Forall2 R' (flat_map f l) (flat_map g l').
Proof.
  intros H; induction 1; cbn [flat_map]; [constructor|].
  apply Forall2_app; auto.
Qed.

Lemma Forall2_nonempty {A B : Type} (R : A -> B -> Prop) l l' :
  Forall2 R l l' -> Lst.nonempty l = Lst.nonempty l'.
Proof. destruct 1; reflexivity. Qed.

Lemma eat_alike flags lit p1 p2 s :
  word_before p1 = word_before p2 ->
  match eat flags lit p1 s, eat flags lit p2 s with
  | Some ps1, Some ps2 => alike_at ps1 ps2
  | None, None => True
  | _, _ => False
  end.
Proof.
  intros Hp; destruct lit as [|a lit]; cbn [eat].
  - split; [reflexivity | exact Hp].
  - destruct s as [|c s]; [exact I|].
    destruct (chr_eq flags a c); [|exact I].
    destruct (eat flags lit (Some c) s); [split; reflexivity | exact I].
Qed.

Lemma runs_alike k p1 p2 s :
  word_before p1 = word_before p2 ->
  Forall2 alike_at (runs k p1 s) (runs k p2 s).
Proof.
  intros Hp.
  assert (Hlast : Forall2 alike_at [(p1, s)] [(p2, s)])
    by (constructor; [split; [reflexivity | exact Hp] | constructor]).
  destruct s as [|c s]; cbn [runs]; [exact Hlast|].
  destruct (in_cset k c); [|exact Hlast].
  apply Forall2_app; [|exact Hlast].
  apply Forall2_same; intros ps; split; reflexivity.
Qed.

Lemma move_alike st1 st2 ps1 ps2 :
  caps st1 = caps st2 -> alike_at ps1 ps2 -> alike (move st1 ps1) (move st2 ps2).
Proof.
  intros Hc [Hs Hp]; unfold alike, alike_at, move; cbn [prev rest caps fst snd].
  auto.
Qed.

Lemma ends_alike flags r st1 st2 :
  bol_free r = true -> alike st1 st2 ->
  Forall2 alike (ends flags r st1) (ends flags r st2).
Proof.
  revert st1 st2;
    induction r as [s|k|k|r1 IH1|a IHa b IHb|a IHa b IHb|r1 IH1| | |r1 IH1|r1 IH1];
    intros st1 st2 Hfree Hst; cbn [ends bol_free] in *;
    pose proof Hst as [[Hrest Hprev] Hcaps]; cbn [fst snd] in Hrest, Hprev.
  - rewrite <- Hrest.
    pose proof (eat_alike flags s (prev st1) (prev st2) (rest st1) Hprev) as H.
    destruct (eat flags s (prev st1) (rest st1)), (eat flags s (prev st2) (rest st1));
      try contradiction; constructor; [|constructor].
    apply move_alike; assumption.
  - rewrite <- Hrest.
    apply (Forall2_map_pair alike_at); [intros; apply move_alike; assumption|].
    apply runs_alike, Hprev.
  - rewrite <- Hrest.
    destruct (rest st1) as [|c s]; [constructor|].
    destruct (in_cset k c); [|constructor].
    apply Forall2_map_both; intros ps.
    apply move_alike; [exact Hcaps | split; reflexivity].
  - apply Forall2_app; [apply IH1; assumption|].
    constructor; [exact Hst | constructor].
  - apply andb_true_iff in Hfree as [Ha Hb].
    apply (Forall2_flat_map_pair alike); [|apply IHa; assumption].
    intros; apply IHb; assumption.
  - apply andb_true_iff in Hfree as [Ha Hb].
    apply Forall2_app; [apply IHa | apply IHb]; assumption.
  - apply (Forall2_map_pair alike); [|apply IH1; assumption].
    intros st1' st2' [[Hrest' Hprev'] Hcaps']; cbn [fst snd] in Hrest', Hprev'.
    unfold alike, alike_at, consumed; cbn [prev rest caps fst snd].
    rewrite Hrest, Hrest', Hcaps'; auto.
  - unfold at_boundary; rewrite Hprev, Hrest.
    destruct (xorb _ _); constructor; [exact Hst | constructor].
  - discriminate.
  - rewrite (Forall2_nonempty _ _ _ (IH1 st1 st2 Hfree Hst)).
    destruct (Lst.nonempty _); constructor; [exact Hst | constructor].
  - rewrite (Forall2_nonempty _ _ _ (IH1 st1 st2 Hfree Hst)).
    destruct (Lst.nonempty _); constructor; [exact Hst | constructor].
Qed.

Lemma matches_at_alike flags r p1 p2 s :
  bol_free r = true -> word_before p1 = word_before p2 ->
  matches_at flags r p1 s = matches_at flags r p2 s.
Proof.
  intros Hfree Hp; unfold matches_at.
  apply (Forall2_nonempty alike), ends_alike; [exact Hfree|].
  split; [split; [reflexivity | exact Hp] | reflexivity].
Qed.

Lemma search_from_alike flags r p1 p2 s :
  bol_free r = true -> word_before p1 = word_before p2 ->
  search_from flags r p1 s = search_from flags r p2 s.
Proof.
  intros Hfree Hp; destruct s as [|c s]; cbn [search_from];
    rewrite (matches_at_alike flags r p1 p2 _ Hfree Hp); reflexivity.
Qed.

Lemma search_from_later flags r p (a : string) (c : ascii) (s : string) :
  search_from flags r (Some c) s = true ->
  search_from flags r p (a +++ String c s) = true.
Proof.
  intros H; revert p; induction a as [|x a IH]; intros p;
    cbn [String.append search_from].
  - rewrite H; apply orb_true_r.
  - rewrite IH; apply orb_true_r.
Qed.

(** The pattern by which the repair recognises a recommendation, and
    the one by which the checker does. *)
Definition repair_recommends : regex :=
  seq [WordB; words ["recommend"; "suggest"; "believe"; "think we should"]; WordB].

Definition checker_recommends : regex :=
  seq [WordB; words ["recommend"; "suggest"; "think"; "believe"]; WordB].

Definition prefixed (text : string) : string := "Recommendation: " +++ text.

(** No match of either pattern starts inside the prefix; from the
    start of the text on, the search goes as without the prefix. *)
Lemma repair_recommends_prefixed text :
  search IGNORECASE repair_recommends (prefixed text)
  = search IGNORECASE repair_recommends text.
Proof.
  transitivity (search_from IGNORECASE repair_recommends (Some " "%char) text).
  - reflexivity.
  - apply search_from_alike; reflexivity.
Qed.

Lemma checker_recommends_prefixed text :
  search IGNORECASE checker_recommends (prefixed text)
  = search IGNORECASE checker_recommends text.
Proof.
  transitivity (search_from IGNORECASE checker_recommends (Some " "%char) text).
  - reflexivity.
  - apply search_from_alike; reflexivity.
Qed.

Lemma pros_cons_prefixed text :
  search IGNORECASE pros_cons text = true ->
  search IGNORECASE pros_cons (prefixed text) = true.
Proof.
  intros H; unfold search, prefixed.
  change ("Recommendation: " +++ text) with ("Recommendation:" +++ String " " text).
  apply search_from_later.
  rewrite (search_from_alike _ _ (Some " "%char) None) by reflexivity.
  exact H.
Qed.

Lemma length_append (a b : string) :
  String.length (a +++ b) = String.length a + String.length b.
Proof.
  induction a as [|c a IH]; cbn [String.append String.length Nat.add]; congruence.
Qed.

Lemma prefixed_differs text : prefixed text <> text.
Proof.
  intros E; apply (f_equal String.length) in E.
  unfold prefixed in E; rewrite length_append in E; cbn [String.length] in E; lia.
Qed.

(** The repair put its prefix before the text: the text holds a
    pros/cons pair and nothing the repair takes for a recommendation. *)
Lemma repair_prefixed_when text :
  _apply_clear_recommendations text = Ok (prefixed text) ->
  search IGNORECASE repair_recommends text = false
  /\ search IGNORECASE pros_cons text = true.
Proof.
  unfold _apply_clear_recommendations; fold repair_recommends.
  destruct (search IGNORECASE repair_recommends text);
    [intros E; injection E as E; symmetry in E; destruct (prefixed_differs _ E)|].
  destruct (search IGNORECASE pros_cons text); [auto|].
  intros E; injection E as E; symmetry in E; destruct (prefixed_differs _ E).
Qed.

(** X15.  The clear-recommendations repair is not idempotent: its
    prefix "Recommendation: " is not what it takes for a recommendation,
    so on a text it has prefixed it puts the prefix once more. *)
Theorem apply_clear_recommendations_twice (text : string) :
  _apply_clear_recommendations text = Ok ("Recommendation: " +++ text) ->
  _apply_clear_recommendations ("Recommendation: " +++ text)
  = Ok ("Recommendation: Recommendation: " +++ text).
Proof.
  intros H; apply repair_prefixed_when in H as [Hnone Hpair].
  unfold _apply_clear_recommendations; fold repair_recommends.
  fold (prefixed text).
  rewrite repair_recommends_prefixed, Hnone, (pros_cons_prefixed text Hpair).
  reflexivity.
Qed.

Lemma apply_clear_recommendations_twice_witness :
  _apply_clear_recommendations "Recommendation: The pros are many, the cons few."
  = Ok "Recommendation: Recommendation: The pros are many, the cons few.".
Proof.
  apply (apply_clear_recommendations_twice "The pros are many, the cons few.").
  vm_compute; reflexivity.
Defined.

Definition unclear_issue : string :=
  "Potentially unclear recommendation - consider stating your position more directly".

Definition no_position_issue : string :=
  "Pros/cons list detected without clear recommendation - state your position upfront".

Lemma unclear_issues_only text issue :
  In issue (flat_map (fun pattern =>
                        if search IGNORECASE pattern text then [unclear_issue] else [])
                     unclear_patterns) ->
  issue = unclear_issue.
Proof.
  intros H; apply in_flat_map in H as (pattern & _ & H).
  destruct (search IGNORECASE pattern text); [|destruct H].
  destruct H as [<-|[]]; reflexivity.
Qed.

(** X16.  Putting "Recommendation: " before a text, which is all the
    clear-recommendations repair does, never cures the issue it is
    meant for: if the checker reported a pros/cons list without clear
    recommendation on the text, it reports it on the prefixed text. *)
Theorem prefix_keeps_no_position_issue (text : string) (issues : list string) :
  _check_clear_recommendations text = Ok issues ->
  In no_position_issue issues ->
  exists issues',
    _check_clear_recommendations ("Recommendation: " +++ text) = Ok issues'
    /\ In no_position_issue issues'.
Proof.
  unfold _check_clear_recommendations; fold checker_recommends unclear_issue.
  fold (prefixed text).
  intros Hcheck Hin.
  assert (Hbase : ~ In no_position_issue
                      (flat_map (fun pattern =>
                                   if search IGNORECASE pattern text
                                   then [unclear_issue] else [])
                                unclear_patterns))
    by (intros H; apply unclear_issues_only in H; discriminate H).
  destruct (search IGNORECASE pros_cons text) eqn:Hpair;
    [|injection Hcheck as <-; contradiction].
  destruct (search IGNORECASE checker_recommends text) eqn:Hrec;
    [injection Hcheck as <-; contradiction|].
  rewrite (pros_cons_prefixed text Hpair), checker_recommends_prefixed, Hrec.
  eexists; split; [reflexivity|].
  apply in_or_app; right; left; reflexivity.
Qed.

Lemma prefix_keeps_no_position_issue_witness :
  exists issues',
    _check_clear_recommendations "Recommendation: The pros are many, the cons few."
    = Ok issues'
    /\ In no_position_issue issues'.
Proof.
  apply (prefix_keeps_no_position_issue
           "The pros are many, the cons few." [no_position_issue]).
  - vm_compute; reflexivity.
  - left; reflexivity.
Defined.

(** ** The console report of [main] *)

(** [main], from the point where it holds the text (read from the
    argument, from the file or from the standard input) and for a run
    without [--output]: the arguments of its [print] calls, in order.
    [str.title] is modelled on the characters whose title case is a
    character below 256, which covers the rule names it is applied
    to. *)

Definition is_cased (c : ascii) : bool :=
  Chr.between 65 90 c || Chr.between 97 122 c || (Chr.code c =? 170)%N
  || (Chr.code c =? 181)%N || (Chr.code c =? 186)%N
  || Chr.between 192 214 c || Chr.between 216 246 c || Chr.between 248 255 c.

Definition title_case (c : ascii) : ascii :=
  if Chr.between 97 122 c || Chr.between 224 246 c || Chr.between 248 254 c
  then ascii_of_N (Chr.code c - 32)
  else c.

(** [s.title()], [previous_is_cased] telling whether the character
    before [s] is a cased one. *)
Fixpoint title_from (previous_is_cased : bool) (s : string) : string :=
  match s with
  | EmptyString => EmptyString
  | String c s' =>
      String (if previous_is_cased then Chr.lower c else title_case c)
             (title_from (is_cased c) s')
  end.

Definition title (s : string) : string := title_from false s.

(** [s.replace(a, b)] for one-character [a] and [b]. *)
Definition replace_char (a b : ascii) (s : string) : string :=
  string_of_list_ascii
    (map (fun c => if Ascii.eqb c a then b else c) (list_ascii_of_string s)).

(** [s * n] *)
Definition times (s : string) (n : nat) : string :=
  String.concat EmptyString (repeat s n).

Definition nl : string := String Chr.newline EmptyString.

Definition great_line : string :=
  nl +++ "ðŸŽ‰ Great! Your text follows Wes Kao's writing principles well!".

Definition consider_line : string :=
  nl +++ "ðŸ’¡ Consider applying the suggestions above to improve your writing.".

Definition header_lines (text : string) : list string :=
  [ nl +++ times "=" 60;
    "WRITING ANALYSIS - ENHANCED WITH CLASSIC WRITING GUIDES";
    times "=" 60;
    "Based on: Wes Kao's principles + Casagrande + Minto Pyramid + HBR Guide + Zinsser";
    nl +++ "Original text (" +++ Str.of_nat (word_count text) +++ " words):";
    times "-" 40;
    (if (200 <? String.length text)%nat then Str.take 200 text +++ "..." else text);
    nl +++ "ANALYSIS RESULTS:";
    times "-" 40 ].

(** The lines printed for one rule. *)
Definition rule_lines (rule_name : string) (rule_analysis : RuleResult) : list string :=
  let status := if passed rule_analysis then "âœ“ PASS" else "âœ— ISSUES FOUND" in
  [ nl +++ title (replace_char "_" " " rule_name) +++ ": " +++ status;
    "  " +++ rr_description rule_analysis ]
  ++ (if negb (passed rule_analysis)
      then "  Issues:" :: map (fun issue => "    â€¢ " +++ issue) (issues rule_analysis)
      else []).

(** The loop over [analysis["analysis"].items()], from the lines
    printed and the value of [all_passed] so far. *)
Fixpoint print_rules (items : list (string * RuleResult)) (printed : list string)
  (all_passed : bool) : list string * bool :=
  match items with
  | [] => (printed, all_passed)
  | (rule_name, rule_analysis) :: items' =>
      print_rules items' (printed ++ rule_lines rule_name rule_analysis)
                  (if negb (passed rule_analysis) then false else all_passed)
  end.

Definition main_output (text : string) : py (list string) :=
  if negb (Str.nonempty (Str.strip text)) then Ok ["No text provided"]
  else
    report <- analyze_text text ;;
    let '(printed, all_passed) :=
      print_rules (analysis report) (header_lines text) true in
    let printed :=
      if Lst.nonempty (suggestions report)
      then printed
           ++ [nl +++ "SUGGESTIONS FOR IMPROVEMENT:"; times "-" 40]
           ++ map (fun suggestion => "  " +++ suggestion) (suggestions report)
      else printed in
    Ok (printed ++ [if all_passed then great_line else consider_line]).

Lemma analyze_text_no_suggestion_free text :
  exists report,
    analyze_text text = Ok report
    /\ (suggestions report = []
        <-> Forall (fun item => passed (snd item) = true) (analysis report)).
Proof.
  eexists; split; [apply analyze_text_eq|].
  cbn [suggestions analysis].
  apply (suggestions_of_nil text rules suggesters_fixed).
Qed.

Lemma print_rules_eq items printed all_passed :
  print_rules items printed all_passed
  = (printed ++ flat_map (fun item => rule_lines (fst item) (snd item)) items,
     all_passed && forallb (fun item => passed (snd item)) items).
Proof.
  revert printed all_passed;
    induction items as [|[rule_name rule_analysis] items IH];
    intros printed all_passed; cbn [print_rules flat_map forallb fst snd].
  - rewrite app_nil_r, andb_true_r; reflexivity.
  - rewrite IH, <- app_assoc.
    destruct (passed rule_analysis), all_passed; reflexivity.
Qed.

Lemma all_passed_forallb (items : list (string * RuleResult)) :
  forallb (fun item => passed (snd item)) items = true
  <-> Forall (fun item => passed (snd item) = true) items.
Proof.
  rewrite forallb_forall, Forall_forall; reflexivity.
Qed.

(** X18.  On a text that is not blank, [main] prints the header, the
    lines of every rule, and then either the suggestions section
    followed by the advice to apply it, or the congratulation alone:
    it congratulates exactly when there is no suggestion to print. *)
Theorem main_output_verdict (text : string) :
  Str.nonempty (Str.strip text) = true ->
  exists report,
    analyze_text text = Ok report
    /\ main_output text
       = Ok (header_lines text
             ++ flat_map (fun item => rule_lines (fst item) (snd item)) (analysis report)
             ++ (if Lst.nonempty (suggestions report)
                 then [nl +++ "SUGGESTIONS FOR IMPROVEMENT:"; times "-" 40]
                      ++ map (fun suggestion => "  " +++ suggestion) (suggestions report)
                      ++ [consider_line]
                 else [great_line])).
Proof.
  intros Htext; unfold main_output; rewrite Htext; cbn [negb].
  destruct (analyze_text_no_suggestion_free text) as (report & Hrep & Hiff).
  exists report; split; [exact Hrep|].
  rewrite Hrep; cbn [bind]; rewrite print_rules_eq; cbn [andb].
  destruct (suggestions report) as [|suggestion others] eqn:E; cbn [Lst.nonempty].
  - replace (forallb (fun item => passed (snd item)) (analysis report)) with true
      by (symmetry; apply all_passed_forallb, Hiff; reflexivity).
    rewrite <- app_assoc; reflexivity.
  - replace (forallb (fun item => passed (snd item)) (analysis report)) with false.
    + rewrite <- !app_assoc; reflexivity.
    + symmetry; apply not_true_is_false; intros H.
      apply all_passed_forallb, Hiff in H; discriminate H.
Qed.

Lemma main_output_verdict_witness :
  exists report,
    analyze_text "We ship the release on Friday." = Ok report
    /\ main_output "We ship the release on Friday."
       = Ok (header_lines "We ship the release on Friday."
             ++ flat_map (fun item => rule_lines (fst item) (snd item)) (analysis report)
             ++ (if Lst.nonempty (suggestions report)
                 then [nl +++ "SUGGESTIONS FOR IMPROVEMENT:"; times "-" 40]
                      ++ map (fun suggestion => "  " +++ suggestion) (suggestions report)
                      ++ [consider_line]
                 else [great_line])).
Proof.
  apply (main_output_verdict "We ship the release on Friday."); reflexivity.
Defined.

(** ** The bottom-line repair and its checker *)

Lemma push_no_sep (sep c : ascii) (l : list string) :
  Ascii.eqb c sep = false ->
  Forall (fun s => Str.has sep s = false) l ->
  Forall (fun s => Str.has sep s = false) (Str.push c l).
Proof.
  intros Hc Hl; destruct Hl as [|s l Hs Hl]; cbn [Str.push];
    (apply Forall_cons; [rewrite has_String, Ascii.eqb_sym, Hc; cbn [orb]|]);
    auto.
Qed.

Lemma split_on_no_sep (sep : ascii) (s : string) :
  Forall (fun seg => Str.has sep seg = false) (Str.split_on sep s).
Proof.
  induction s as [|c s IH]; cbn [Str.split_on].
  - apply Forall_cons; [reflexivity | apply Forall_nil].
  - destruct (Ascii.eqb c sep) eqn:E.
    + apply Forall_cons; [reflexivity | exact IH].
    + apply push_no_sep; assumption.
Qed.

Lemma lstrip_no_dot x s : Str.has x s = false -> Str.has x (Str.lstrip s) = false.
Proof.
  induction s as [|c s IH]; cbn [Str.lstrip]; intros H; [exact H|].
  destruct (Chr.is_space c); [|exact H].
  rewrite has_String in H; apply orb_false_iff in H as [_ H]; exact (IH H).
Qed.

Lemma rstrip_no_dot x s : Str.has x s = false -> Str.has x (Str.rstrip s) = false.
Proof.
  induction s as [|c s IH]; cbn [Str.rstrip]; intros H; [exact H|].
  rewrite has_String in H; apply orb_false_iff in H as [Hc Hs].
  specialize (IH Hs).
  destruct (Str.rstrip s) as [|c' r].
  - destruct (Chr.is_space c); [reflexivity|].
    rewrite has_String, Hc; reflexivity.
  - rewrite has_String, Hc, IH; reflexivity.
Qed.

Lemma stripped_sentences_no_dot text :
  Forall no_dot (stripped_sentences text).
Proof.
  unfold stripped_sentences; apply Forall_map.
  apply Forall_forall; intros s Hin; apply filter_In in Hin as [Hin _].
  pose proof (split_on_no_sep "." text) as H; rewrite Forall_forall in H.
  apply lstrip_no_dot, rstrip_no_dot, H, Hin.
Qed.

Lemma split_on_join a (l : list string) :
  Forall no_dot (a :: l) ->
  Str.split_on "." (Str.join ". " (a :: l)) = a :: map (String " ") l.
Proof.
  revert a; induction l as [|b l IH]; intros a Hall;
    inversion Hall as [|? ? Ha Hl]; subst.
  - apply split_on_absent, Ha.
  - change (Str.join ". " (a :: b :: l))
      with (a +++ String "." (String " " (Str.join ". " (b :: l)))).
    rewrite (split_on_append "." a _ Ha); cbn [Str.split_on].
    change (Ascii.eqb " " ".") with false; cbv iota.
    rewrite (IH b Hl); reflexivity.
Qed.

Lemma split_on_final_sep (sep : ascii) (s : string) :
  Str.split_on sep (s +++ String sep EmptyString)
  = Str.split_on sep s ++ [EmptyString].
Proof.
  induction s as [|c s IH]; cbn [String.append Str.split_on].
  - rewrite Ascii.eqb_refl; reflexivity.
  - rewrite IH; destruct (Ascii.eqb c sep); [reflexivity|].
    pose proof (split_on_length sep s) as Hlen.
    destruct (Str.split_on sep s); [discriminate | reflexivity].
Qed.

(** X19.  On a text of three to five sentences (a final period
    counting for one more) whose first sentence holds no conclusion
    indicator, the bottom-line repair does not cure the rule: whatever
    sentence it moves, the first sentence stays first and is all the
    checker reads of the repaired text, which fails the rule again. *)
Theorem apply_bottom_line_first_no_cure (text first : string) :
  hd_error (stripped_sentences text) = Some first ->
  any_search IGNORECASE conclusion_indicators first = false ->
  3 <= List.length (stripped_sentences text)
       + (if Str.endswith_dot text then 1 else 0) <= 5 ->
  exists repaired,
    _apply_bottom_line_first text = Ok repaired
    /\ _check_bottom_line_first repaired = Ok [buried_conclusion].
Proof.
  intros Hfirst Hnone Hsize.
  destruct (apply_bottom_line_first_permutes text) as (moved & -> & Hperm & Hhd).
  eexists; split; [reflexivity|].
  rewrite Hfirst in Hhd.
  destruct moved as [|a others]; [discriminate|]; injection Hhd as ->.
  assert (Hdots : Forall no_dot (first :: others))
    by (apply (Permutation_Forall (Permutation_sym Hperm)),
              stripped_sentences_no_dot).
  rewrite <- (Permutation_length Hperm) in Hsize.
  assert (Hsplit : exists tail,
             Str.split_on "."
               (Str.join ". " (first :: others)
                +++ (if Str.endswith_dot text then "." else ""))
             = first :: tail
             /\ List.length (first :: tail)
                = List.length (first :: others)
                  + (if Str.endswith_dot text then 1 else 0)).
  { destruct (Str.endswith_dot text).
    - rewrite split_on_final_sep, (split_on_join first others Hdots).
      eexists; split; [reflexivity|].
      cbn [app List.length]; rewrite length_app, length_map; cbn [List.length]; lia.
    - rewrite append_empty_r, (split_on_join first others Hdots).
      eexists; split; [reflexivity|].
      cbn [List.length]; rewrite length_map; lia. }
  destruct Hsplit as (tail & Hsplit & Hlen).
  rewrite <- Hlen in Hsize.
  apply check_bottom_line_first_fires.
  - rewrite Hsplit; lia.
  - unfold has_early_conclusion, first_third; rewrite Hsplit.
    replace (List.length (first :: tail) / 3) with 1
      by (apply Nat.div_unique with (r := List.length (first :: tail) - 3); lia).
    cbn [firstn existsb]; rewrite Hnone; reflexivity.
Qed.

Lemma apply_bottom_line_first_no_cure_witness :
  exists repaired,
    _apply_bottom_line_first "We met. It rained. I recommend we proceed." = Ok repaired
    /\ _check_bottom_line_first repaired = Ok [buried_conclusion].
Proof.
  apply (apply_bottom_line_first_no_cure
           "We met. It rained. I recommend we proceed." "We met").
  - vm_compute; reflexivity.
  - vm_compute; reflexivity.
  - vm_compute; lia.
Defined.
